(** * MARL UI testing: a shallow embedding of the Python sources

    The development follows the layout of [src/marl-ui-testing]:
    - [Py]: the fragment of Python and numpy the sources rely on
      (exceptions, true division, truthiness, substring tests, slices);
    - [ui_state_representation]: [UIElement], [PageState], [state_to_vector],
      [get_page_type];
    - [reward_system]: [RewardCalculator] and its metrics;
    - [marl_agents]: [ExplorationAgent], [TestGenerationAgent], [MARLSystem];
    - [train_marl]: [MARLTrainer._train_episode];
    - [notions] and [fixtures]: the predicates the statements use and small
      concrete collaborators on which they are exercised.

    The external collaborators (hashlib, PyTorch, the Selenium driver) are
    type classes: the statements hold for every instance.  What the code
    draws at random (numpy, random, dropout masks) is an explicit argument.

    Python floats are modelled by exact rationals ([Q]): rounding is not
    modelled, and neither are the non-finite floats.  Strings are sequences
    of 8-bit characters; [str.lower] is modelled on the ASCII letters. *)

From Stdlib Require Import Ascii String QArith Lqa.
From stdpp Require Import base gmap sets list strings pretty.

(** ** Python primitives *)
Module Py.

(** The exceptions the modelled code can raise. *)
Inductive exn :=
  | ZeroDivisionError
  | TypeError
  | ValueError
  | IndexError
  | AttributeError
  | WebDriverException.

(** A computation either returns a value or raises. *)
Inductive result (A : Type) :=
  | Ok (a : A)
  | Raise (e : exn).
Arguments Ok {A} a.
Arguments Raise {A} e.

#[global] Instance result_ret : MRet result := λ A a, Ok a.
#[global] Instance result_bind : MBind result := λ A B k m,
  match m with
  | Ok a => k a
  | Raise e => Raise e
  end.

#[global] Instance result_fmap : FMap result := λ A B f m,
  match m with
  | Ok a => Ok (f a)
  | Raise e => Raise e
  end.

Definition is_ok {A} (r : result A) : bool :=
  match r with Ok _ => true | Raise _ => false end.

(** [for x in xs: body], threading the loop-carried variables [s]. *)
Fixpoint for_each {A S} (xs : list A) (body : S → A → result S) (s : S)
  : result S :=
  match xs with
  | [] => Ok s
  | x :: xs' => s' ← body s x; for_each xs' body s'
  end.

#[global] Instance Q_inhabited : Inhabited Q := populate 0%Q.

Definition Qnat (n : nat) : Q := inject_Z (Z.of_nat n).

(** [a / b] on numbers: true division, raising on a zero divisor. *)
Definition truediv (a b : Q) : result Q :=
  if Qeq_bool b 0 then Raise ZeroDivisionError else Ok (a / b)%Q.

(** Dynamically typed values stored in free-form dictionaries. *)
Inductive pyval :=
  | PyNone
  | PyBool (b : bool)
  | PyNum (q : Q)
  | PyStr (s : string).

(** Truth value testing ([if v], [1.0 if v else 0.0]). *)
Definition truthy (v : pyval) : bool :=
  match v with
  | PyNone => false
  | PyBool b => b
  | PyNum q => negb (Qeq_bool q 0)
  | PyStr s => negb (String.eqb s EmptyString)
  end.

(** [v / d] for a float literal [d]: [bool] is a subclass of [int]. *)
Definition val_truediv (v : pyval) (d : Q) : result Q :=
  match v with
  | PyBool b => truediv (if b then 1%Q else 0%Q) d
  | PyNum q => truediv q d
  | PyNone | PyStr _ => Raise TypeError
  end.

(** [needle in hay] on strings. *)
Fixpoint contains (needle hay : string) : bool :=
  String.prefix needle hay ||
  match hay with
  | EmptyString => false
  | String _ hay' => contains needle hay'
  end.

Definition lower_char (c : ascii) : ascii :=
  let n := nat_of_ascii c in
  if (65 <=? n)%nat && (n <=? 90)%nat then ascii_of_nat (n + 32) else c.

(** [s.lower()] *)
Fixpoint lower (s : string) : string :=
  match s with
  | EmptyString => EmptyString
  | String c s' => String (lower_char c) (lower s')
  end.

(** [x in xs] on a list of strings. *)
Definition in_list (x : string) (xs : list string) : bool :=
  existsb (String.eqb x) xs.

(** [xs.index(x)], raising [ValueError] when [x] is absent. *)
Fixpoint index (x : string) (xs : list string) : result nat :=
  match xs with
  | [] => Raise ValueError
  | y :: xs' => if String.eqb x y then Ok 0%nat else S <$> index x xs'
  end.

(** [np.zeros(n)] *)
Definition zeros (n : nat) : list Q := replicate n 0%Q.

(** [v[lo:hi] = xs] on a one-dimensional array, for [lo <= hi]: the slice is
    clipped to the array, a one-element list is broadcast over the slice, and
    any other list whose length differs from the slice's is refused. *)
Definition set_slice (v : list Q) (lo hi : nat) (xs : list Q)
  : result (list Q) :=
  let hi' := hi `min` length v in
  let lo' := lo `min` hi' in
  match xs with
  | [x] => Ok (take lo' v ++ replicate (hi' - lo') x ++ drop hi' v)
  | _ =>
      if decide (length xs = hi' - lo')
      then Ok (take lo' v ++ xs ++ drop hi' v)
      else Raise ValueError
  end.

(** The attribute names of a [dict] object (CPython 3.11, [dir({})]). *)
Definition dict_attributes : list string :=
  ["__class__"; "__class_getitem__"; "__contains__"; "__delattr__";
   "__delitem__"; "__dir__"; "__doc__"; "__eq__"; "__format__"; "__ge__";
   "__getattribute__"; "__getitem__"; "__getstate__"; "__gt__"; "__hash__";
   "__init__"; "__init_subclass__"; "__ior__"; "__iter__"; "__le__";
   "__len__"; "__lt__"; "__ne__"; "__new__"; "__or__"; "__reduce__";
   "__reduce_ex__"; "__repr__"; "__reversed__"; "__ror__"; "__setattr__";
   "__setitem__"; "__sizeof__"; "__str__"; "__subclasshook__"; "clear";
   "copy"; "fromkeys"; "get"; "items"; "keys"; "pop"; "popitem";
   "setdefault"; "update"; "values"].

(** [hasattr(locals(), name)]: [locals()] is a [dict], whose keys are not
    attributes, so the test only depends on [name]. *)
Definition hasattr_locals (name : string) : bool :=
  in_list name dict_attributes.

(** [d.get(key, '')] where a string is expected: any other value behaves, in
    the membership tests that follow, like a string found in no list. *)
Definition get_str (d : gmap string pyval) (key : string) : option string :=
  match d !! key with
  | None => Some EmptyString
  | Some (PyStr s) => Some s
  | Some _ => None
  end.

(** [x in xs] for the result of [get_str]. *)
Definition str_in (x : option string) (xs : list string) : bool :=
  match x with
  | Some s => in_list s xs
  | None => false
  end.

Definition Qlt_bool (a b : Q) : bool := negb (Qle_bool b a).

(** [min(a, b)] and [max(a, b)] on numbers *)
Definition py_min (a b : Q) : Q := if Qlt_bool b a then b else a.
Definition py_max (a b : Q) : Q := if Qlt_bool a b then b else a.

(** [d.get(key, 0)] used as a number. *)
Definition get_num (d : gmap string pyval) (key : string) : result Q :=
  match d !! key with
  | None => Ok 0%Q
  | Some (PyNum q) => Ok q
  | Some (PyBool b) => Ok (if b then 1%Q else 0%Q)
  | Some _ => Raise TypeError
  end.

End Py.

(** ** ui_state_representation.py *)
Module ui_state_representation.
Import Py.

(** [@dataclass UIElement] *)
Record UIElement := mkUIElement {
  tag : string;
  text : string;
  attributes : gmap string string;
  position : gmap string Z;
  is_visible : bool;
  is_enabled : bool;
  is_interactable : bool;
  element_type : string;
  xpath : string;
  css_selector : string;
}.

(** [@dataclass PageState] *)
Record PageState := mkPageState {
  url : string;
  title : string;
  elements : list UIElement;
  user_context : gmap string pyval;
  page_type : string;
  timestamp : Q;
}.

(** The browser behind Selenium's [driver].  [displayed_elements d] is the
    list that the selector loop of [extract_elements] collects on the current
    page; [perform] runs one browser command (or lets the given time pass)
    and tells whether it went through without raising. *)
Inductive command :=
  | Get (target : string)
  | Click (by_xpath : string)
  | ClearAndSendKeys (by_xpath : string) (keys : option string)
  | ScrollBy (dy : Z)
  | GoBack
  | Refresh
  | Sleep (seconds : Q).

Class WebDriver := {
  driver : Type;
  current_url : driver → string;
  driver_title : driver → string;
  displayed_elements : driver → list UIElement;
  perform : driver → command → driver * bool;
}.

(** [class UIStateRepresentation]: the fields set by [__init__]. *)
Record UIStateRepresentation := mkUIStateRepresentation {
  max_elements : nat;
  element_types : list string;
  attribute_types : list string;
}.

(** [UIStateRepresentation.__init__(max_elements=100)] *)
Definition UIStateRepresentation_init (max_elements : nat)
  : UIStateRepresentation :=
  {| max_elements := max_elements;
     element_types :=
       ["button"; "input"; "link"; "select"; "textarea";
        "checkbox"; "radio"; "image"; "div"; "span"; "other"];
     attribute_types :=
       ["id"; "class"; "type"; "value"; "placeholder"; "href"; "src"] |}.

Definition default_representation : UIStateRepresentation :=
  UIStateRepresentation_init 100.

(** [extract_elements]: [elements[:self.max_elements]] *)
Definition extract_elements `{WebDriver} (self : UIStateRepresentation)
    (d : driver) : list UIElement :=
  take (max_elements self) (displayed_elements d).

(** [{elem_type: 0 for elem_type in self.element_types}] *)
Definition zero_counts (types : list string) : gmap string nat :=
  list_to_map ((λ t, (t, 0%nat)) <$> types).

(** The body of the counting loop: only keys already present are bumped. *)
Definition count_element (counts : gmap string nat) (e : UIElement)
  : gmap string nat :=
  match counts !! element_type e with
  | Some n => <[element_type e := S n]> counts
  | None => counts
  end.

(** [sum(1 for elem in elements if attr_type in elem.attributes)] *)
Definition attr_count (attr_type : string) (els : list UIElement) : nat :=
  length (filter (λ e, is_Some (attributes e !! attr_type)) els).

(** [1.0 if c else 0.0] *)
Definition indicator (c : bool) : Q := if c then 1.0%Q else 0.0%Q.

(** [user_context.get(key, False)] followed by a truth test *)
Definition flag (ctx : gmap string pyval) (key : string) : bool :=
  truthy (default (PyBool false) (ctx !! key)).

(** [user_context.get(key, 0) / d] *)
Definition scaled (ctx : gmap string pyval) (key : string) (d : Q)
  : result Q :=
  val_truediv (default (PyNum 0) (ctx !! key)) d.

(** [state_to_vector] *)
Definition state_to_vector (self : UIStateRepresentation)
    (page_state : PageState) : result (list Q) :=
  let vector_size :=
    (length (element_types self) * 10 +
     length (attribute_types self) * 5 +
     20 +
     10)%nat in
  let vector := zeros vector_size in
  let idx := 0%nat in
  let els := elements page_state in
  let ctx := user_context page_state in
  (* Element type distribution *)
  let element_counts :=
    foldl count_element (zero_counts (element_types self)) els in
  '(vector, idx) ← for_each (element_types self)
    (λ '(vector, idx) elem_type,
       r ← truediv (Qnat (element_counts !!! elem_type)) (Qnat (length els));
       vector ← set_slice vector idx (idx + 10) (replicate 10 r);
       mret (vector, (idx + 10)%nat))
    (vector, idx);
  (* Attribute presence *)
  '(vector, idx) ← for_each (attribute_types self)
    (λ '(vector, idx) attr_type,
       r ← truediv (Qnat (attr_count attr_type els)) (Qnat (length els));
       vector ← set_slice vector idx (idx + 5) (replicate 5 r);
       mret (vector, (idx + 5)%nat))
    (vector, idx);
  (* Page context features *)
  f0 ← truediv (Qnat (length els)) (Qnat (max_elements self));
  f5 ← truediv (Qnat (String.length (url page_state))) 100.0%Q;
  let page_features :=
    [ f0;
      indicator (contains "login" (page_type page_state));
      indicator (contains "product" (page_type page_state));
      indicator (contains "basket" (page_type page_state));
      indicator (contains "admin" (page_type page_state));
      f5;
      indicator (flag ctx "logged_in");
      indicator (flag ctx "is_admin");
      indicator (flag ctx "has_items_in_basket");
      indicator (flag ctx "is_deluxe_user") ] in
  vector ← set_slice vector idx (idx + 10) page_features;
  let idx := (idx + 10)%nat in
  (* User context features *)
  u0 ← scaled ctx "user_id" 1000.0%Q;
  u1 ← scaled ctx "session_duration" 3600.0%Q;
  u2 ← scaled ctx "page_views" 100.0%Q;
  u3 ← scaled ctx "failed_logins" 10.0%Q;
  u4 ← scaled ctx "successful_actions" 50.0%Q;
  let user_features := [u0; u1; u2; u3; u4] in
  vector ← set_slice vector idx (idx + 5) user_features;
  mret vector.

(** [get_page_type] *)
Definition get_page_type (url title : string) (els : list UIElement)
  : string :=
  let url_lower := lower url in
  let title_lower := lower title in
  if contains "login" url_lower || contains "login" title_lower
  then "login"
  else if contains "register" url_lower || contains "register" title_lower
  then "register"
  else if contains "basket" url_lower || contains "cart" url_lower
  then "basket"
  else if contains "product" url_lower ||
          existsb (λ e, contains "product" (lower (text e))) els
  then "product"
  else if contains "admin" url_lower || contains "administration" title_lower
  then "admin"
  else if contains "profile" url_lower || contains "account" url_lower
  then "profile"
  else if contains "search" url_lower
  then "search"
  else "general".

(** *** Element extraction *)

(** A Selenium [WebElement] that is still attached to the page, so that its
    calls return: the values [extract_elements] reads from it.
    [stripped_text] is [web_element.text.strip()]; [script_xpath] and
    [short_selector] are what [_get_xpath] and [_get_css_selector] return
    for it. *)
Record WebElement := mkWebElement {
  tag_name : string;
  stripped_text : string;
  get_attribute : string → option string;
  location : Z * Z;
  dimensions : Z * Z;
  is_displayed : bool;
  element_enabled : bool;
  script_xpath : string;
  short_selector : string;
}.

(** The attribute loop of [_create_ui_element]: only the names of
    [attribute_types] are asked for, and only truthy values are kept. *)
Definition collect_attributes (names : list string) (web_element : WebElement)
  : gmap string string :=
  foldl
    (λ attributes attr,
       match get_attribute web_element attr with
       | Some value =>
           if negb (String.eqb value EmptyString)
           then <[attr := value]> attributes
           else attributes
       | None => attributes
       end)
    ∅ names.

(** [_determine_element_type] *)
Definition _determine_element_type (element : WebElement)
    (attributes : gmap string string) : string :=
  let tag := lower (tag_name element) in
  if String.eqb tag "button" then "button"
  else if String.eqb tag "input" then
    let input_type := default "text" (attributes !! "type") in
    if in_list input_type ["checkbox"; "radio"] then input_type else "input"
  else if String.eqb tag "select" then "select"
  else if String.eqb tag "textarea" then "textarea"
  else if String.eqb tag "a" then "link"
  else if String.eqb tag "img" then "image"
  else if in_list tag ["div"; "span"] then
    if match attributes !! "onclick" with
       | Some v => negb (String.eqb v EmptyString)
       | None => false
       end
       || bool_decide (attributes !! "role" = Some "button")
    then "button"
    else tag
  else "other".

(** [_is_interactable] *)
Definition _is_interactable (element : WebElement) : bool :=
  is_displayed element && element_enabled element &&
  (0 <? (dimensions element).1)%Z && (0 <? (dimensions element).2)%Z.

(** [_create_ui_element] *)
Definition _create_ui_element (self : UIStateRepresentation)
    (web_element : WebElement) : UIElement :=
  let tag := lower (tag_name web_element) in
  let text := stripped_text web_element in
  let attributes := collect_attributes (attribute_types self) web_element in
  let position : gmap string Z :=
    <["x" := (location web_element).1]> (
    <["y" := (location web_element).2]> (
    <["width" := (dimensions web_element).1]> (
    <["height" := (dimensions web_element).2]> ∅))) in
  let element_type := _determine_element_type web_element attributes in
  {| tag := tag;
     text := text;
     attributes := attributes;
     position := position;
     is_visible := is_displayed web_element;
     is_enabled := element_enabled web_element;
     is_interactable := _is_interactable web_element;
     element_type := element_type;
     xpath := script_xpath web_element;
     css_selector := short_selector web_element |}.

(** The one-character string holding a double quote. *)
Definition quote_mark : string := String (ascii_of_nat 34) EmptyString.

(** The selectors [extract_elements] runs through. *)
Definition interactable_selectors : list string :=
  [ "button"; "input"; "select"; "textarea"; "a[href]"; "[onclick]";
    "[role=" +:+ quote_mark +:+ "button" +:+ quote_mark +:+ "]";
    "[tabindex]" ].

(** [extract_elements], with [find_elements selector] standing for
    [driver.find_elements(By.CSS_SELECTOR, selector)]. *)
Definition extract_elements_from (self : UIStateRepresentation)
    (find_elements : string → list WebElement) : list UIElement :=
  let elements :=
    foldl
      (λ elements selector,
         foldl
           (λ elements elem,
              if is_displayed elem
              then elements ++ [_create_ui_element self elem]
              else elements)
           elements (find_elements selector))
      [] interactable_selectors in
  take (max_elements self) elements.

End ui_state_representation.

(** ** reward_system.py *)
Module reward_system.
Import Py ui_state_representation.

(** [hashlib.md5(s.encode()).hexdigest()] *)
Class Hashlib := { md5_hexdigest : string → string }.

(** [@dataclass CoverageMetrics] *)
Record CoverageMetrics := mkCoverageMetrics {
  pages_visited : gset string;
  elements_discovered : gset string;
  interactions_performed : gset string;
  unique_paths : gset string;
  page_coverage : Q;
  element_coverage : Q;
  interaction_coverage : Q;
}.

(** [@dataclass QualityMetrics] *)
Record QualityMetrics := mkQualityMetrics {
  test_diversity : Q;
  test_complexity : Q;
  assertion_coverage : Q;
  edge_case_coverage : Q;
  bug_discovery_rate : Q;
}.

(** The dictionary a test scenario is; its keys are always present in the
    scenarios the repository builds, so they are fields here. *)
Record TestScenario := mkTestScenario {
  name : string;
  pattern : string;
  steps : list (gmap string pyval);
  assertions : list (gmap string pyval);
  test_data : gmap string pyval;
  expected_outcome : string;
  priority : string;
}.

(** [class RewardCalculator] *)
Record RewardCalculator := mkRewardCalculator {
  coverage_metrics : CoverageMetrics;
  quality_metrics : QualityMetrics;
  weights : gmap string Q;
  baseline_metrics : gmap string Z;
}.

(** The [CoverageMetrics(...)] built by [__init__] and [reset_metrics]:
    four empty sets, the ratios at their default [0.0]. *)
Definition fresh_coverage : CoverageMetrics :=
  {| pages_visited := ∅;
     elements_discovered := ∅;
     interactions_performed := ∅;
     unique_paths := ∅;
     page_coverage := 0.0;
     element_coverage := 0.0;
     interaction_coverage := 0.0 |}.

(** [QualityMetrics()] *)
Definition fresh_quality : QualityMetrics :=
  {| test_diversity := 0.0;
     test_complexity := 0.0;
     assertion_coverage := 0.0;
     edge_case_coverage := 0.0;
     bug_discovery_rate := 0.0 |}.

(** [RewardCalculator.__init__] *)
Definition RewardCalculator_init : RewardCalculator :=
  {| coverage_metrics := fresh_coverage;
     quality_metrics := fresh_quality;
     weights :=
       <["exploration" := 0.3%Q]> (
       <["coverage" := 0.25%Q]> (
       <["quality" := 0.2%Q]> (
       <["bug_discovery" := 0.15%Q]> (
       <["efficiency" := 0.1%Q]> ∅))));
     baseline_metrics :=
       <["total_pages" := 50%Z]> (
       <["total_elements" := 1000%Z]> (
       <["total_interactions" := 100%Z]> ∅)) |}.

Definition with_coverage (self : RewardCalculator) (c : CoverageMetrics)
  : RewardCalculator :=
  {| coverage_metrics := c;
     quality_metrics := quality_metrics self;
     weights := weights self;
     baseline_metrics := baseline_metrics self |}.

Section hashing.
Context `{Hashlib}.

(** [_hash_page] *)
Definition _hash_page (page_state : PageState) : string :=
  let page_info :=
    url page_state +:+ "_" +:+ title page_state +:+ "_" +:+
    page_type page_state in
  md5_hexdigest page_info.

(** [_hash_element] *)
Definition _hash_element (element : UIElement) : string :=
  let element_info :=
    tag element +:+ "_" +:+ element_type element +:+ "_" +:+ xpath element in
  md5_hexdigest element_info.

(** The variables the element loop of [calculate_exploration_reward]
    carries: the discovered set, the counter, and the loop-local
    [element_hash] (unbound before the first iteration). *)
Record element_loop := mkElementLoop {
  discovered : gset string;
  new_elements : nat;
  element_hash : option string;
}.

Definition element_loop_body (st : element_loop) (element : UIElement)
  : element_loop :=
  let h := _hash_element element in
  if decide (h ∉ discovered st)
  then {| discovered := {[h]} ∪ discovered st;
          new_elements := S (new_elements st);
          element_hash := Some h |}
  else {| discovered := discovered st;
          new_elements := new_elements st;
          element_hash := Some h |}.

(** [calculate_exploration_reward]: the reward and the calculator after the
    call. *)
Definition calculate_exploration_reward (self : RewardCalculator)
    (page_state : PageState) (action : string) (success : bool)
  : Q * RewardCalculator :=
  let cm := coverage_metrics self in
  let reward := 0.0%Q in
  (* Base reward for successful actions *)
  let reward := if success then (reward + 1.0)%Q else (reward - 0.5)%Q in
  (* Reward for discovering new pages *)
  let page_hash := _hash_page page_state in
  let '(pages, reward) :=
    if decide (page_hash ∉ pages_visited cm)
    then ({[page_hash]} ∪ pages_visited cm, (reward + 2.0)%Q)
    else (pages_visited cm, reward) in
  (* Reward for discovering new elements *)
  let loop :=
    foldl element_loop_body
      {| discovered := elements_discovered cm;
         new_elements := 0;
         element_hash := None |}
      (elements page_state) in
  let reward :=
    if (0 <? new_elements loop)%nat
    then (reward + Qnat (new_elements loop) * 0.5)%Q
    else reward in
  (* Reward for meaningful interactions *)
  let '(interactions, reward) :=
    if in_list action ["click"; "type"; "select"] && success
    then
      let interaction_key :=
        page_hash +:+ "_" +:+ action +:+ "_" +:+
        (if hasattr_locals "element_hash"
         then default EmptyString (element_hash loop)
         else "unknown") in
      if decide (interaction_key ∉ interactions_performed cm)
      then ({[interaction_key]} ∪ interactions_performed cm,
            (reward + 1.0)%Q)
      else (interactions_performed cm, reward)
    else (interactions_performed cm, reward) in
  (* Penalty for repetitive actions *)
  let reward :=
    if in_list action ["wait"; "scroll_up"; "scroll_down"]
    then (reward - 0.1)%Q
    else reward in
  (reward,
   with_coverage self
     {| pages_visited := pages;
        elements_discovered := discovered loop;
        interactions_performed := interactions;
        unique_paths := unique_paths cm;
        page_coverage := page_coverage cm;
        element_coverage := element_coverage cm;
        interaction_coverage := interaction_coverage cm |}).

End hashing.

(** [len(s) / self.baseline_metrics[key]]; the divisor is one of the nonzero
    constants of [__init__]. *)
Definition ratio (self : RewardCalculator) (s : gset string) (key : string)
  : Q :=
  (Qnat (size s) / inject_Z (baseline_metrics self !!! key))%Q.

(** [calculate_coverage_reward] *)
Definition calculate_coverage_reward (self : RewardCalculator)
  : Q * RewardCalculator :=
  let cm := coverage_metrics self in
  (* Update coverage percentages *)
  let cm :=
    {| pages_visited := pages_visited cm;
       elements_discovered := elements_discovered cm;
       interactions_performed := interactions_performed cm;
       unique_paths := unique_paths cm;
       page_coverage := ratio self (pages_visited cm) "total_pages";
       element_coverage :=
         ratio self (elements_discovered cm) "total_elements";
       interaction_coverage :=
         ratio self (interactions_performed cm) "total_interactions" |} in
  (* Calculate weighted coverage score *)
  let coverage_score :=
    (page_coverage cm * 0.4 +
     element_coverage cm * 0.4 +
     interaction_coverage cm * 0.2)%Q in
  let coverage_reward := (coverage_score * 10.0)%Q in
  (* Bonus for reaching coverage milestones *)
  let coverage_reward :=
    if Qle_bool 0.8 (page_coverage cm)
    then (coverage_reward + 5.0)%Q else coverage_reward in
  let coverage_reward :=
    if Qle_bool 0.7 (element_coverage cm)
    then (coverage_reward + 5.0)%Q else coverage_reward in
  (coverage_reward, with_coverage self cm).

(** [_calculate_test_complexity] *)
Definition _calculate_test_complexity (steps : list (gmap string pyval))
  : result Q :=
  complexity ← for_each steps
    (λ complexity step,
       let action := get_str step "action" in
       (* Base complexity by action type *)
       let complexity :=
         if str_in action ["click"; "type"] then (complexity + 1.0)%Q
         else if str_in action ["navigate"; "wait"] then (complexity + 0.5)%Q
         else if str_in action ["scroll"; "hover"] then (complexity + 0.3)%Q
         else complexity in
       (* Additional complexity for conditional logic *)
       let complexity :=
         if decide (is_Some (step !! "condition"))
         then (complexity + 0.5)%Q else complexity in
       (* Additional complexity for data-driven tests *)
       match step !! "value" with
       | None => Ok complexity
       | Some (PyStr v) =>
           Ok (if String.prefix "${" v then (complexity + 0.3)%Q
               else complexity)
       | Some _ => Raise AttributeError
       end)
    0.0%Q;
  mret (py_min complexity 10.0).

(** [_calculate_assertion_quality] *)
Definition _calculate_assertion_quality
    (assertions : list (gmap string pyval)) : Q :=
  let quality :=
    foldl
      (λ quality assertion,
         let assertion_type := get_str assertion "type" in
         if str_in assertion_type ["element_visible"; "text_contains"]
         then (quality + 1.0)%Q
         else if str_in assertion_type ["url_contains"; "element_count"]
         then (quality + 1.5)%Q
         else if str_in assertion_type ["attribute_equals"; "css_property"]
         then (quality + 2.0)%Q
         else if str_in assertion_type
                   ["performance_metric"; "accessibility_check"]
         then (quality + 2.5)%Q
         else quality)
      0.0%Q assertions in
  py_min quality 10.0.

(** The one-character string holding a double quote. *)
Definition dquote : string := String (ascii_of_nat 34) EmptyString.

(** [_calculate_edge_case_coverage] *)
Definition _calculate_edge_case_coverage (test_scenario : TestScenario)
  : result Q :=
  edge_case_score ← for_each (steps test_scenario)
    (λ edge_case_score step,
       match get_str step "value" with
       | None => Raise TypeError
       | Some value =>
           (* Empty/null values *)
           let score :=
             if in_list value [EmptyString; "null"; "undefined"]
             then (edge_case_score + 1.0)%Q else edge_case_score in
           (* Special characters *)
           let score :=
             if existsb (λ char, contains char value)
                  ["<"; ">"; dquote; "'"; "&"]
             then (score + 1.0)%Q else score in
           (* Long strings *)
           let score :=
             if (100 <? String.length value)%nat
             then (score + 1.0)%Q else score in
           (* SQL injection patterns *)
           let score :=
             if existsb (λ pat, contains pat (lower value))
                  ["union"; "select"; "drop"; "insert"]
             then (score + 2.0)%Q else score in
           Ok score
       end)
    0.0%Q;
  mret (py_min edge_case_score 5.0).

(** [calculate_test_quality_reward] *)
Definition calculate_test_quality_reward (test_scenario : TestScenario)
  : result Q :=
  let quality_reward := 0.0%Q in
  (* Test completeness *)
  let quality_reward :=
    if (3 <=? length (steps test_scenario))%nat
    then (quality_reward + 2.0)%Q else quality_reward in
  let quality_reward :=
    if (2 <=? length (assertions test_scenario))%nat
    then (quality_reward + 2.0)%Q else quality_reward in
  (* Test diversity *)
  let quality_reward :=
    if in_list (pattern test_scenario)
         ["login_flow"; "registration_flow"; "checkout_flow"]
    then (quality_reward + 1.5)%Q
    else if in_list (pattern test_scenario)
              ["security_tests"; "error_handling"]
    then (quality_reward + 2.0)%Q
    else quality_reward in
  (* Test complexity *)
  complexity_score ← _calculate_test_complexity (steps test_scenario);
  let quality_reward := (quality_reward + complexity_score * 0.5)%Q in
  (* Assertion quality *)
  let assertion_quality :=
    _calculate_assertion_quality (assertions test_scenario) in
  let quality_reward := (quality_reward + assertion_quality * 0.3)%Q in
  (* Edge case coverage *)
  edge_case_score ← _calculate_edge_case_coverage test_scenario;
  mret (quality_reward + edge_case_score * 0.4)%Q.

(** [calculate_bug_discovery_reward] *)
Definition calculate_bug_discovery_reward (test_results : gmap string pyval)
  : result Q :=
  let bump (key : string) (bonus : Q) (bug_reward : Q) : result Q :=
    n ← get_num test_results key;
    mret (if Qlt_bool 0 n then (bug_reward + bonus)%Q else bug_reward) in
  bug_reward ← bump "failed_assertions" 3.0%Q 0.0%Q;
  bug_reward ← bump "javascript_errors" 2.0%Q bug_reward;
  bug_reward ← bump "accessibility_issues" 1.5%Q bug_reward;
  bug_reward ← bump "performance_issues" 1.0%Q bug_reward;
  bug_reward ← bump "security_vulnerabilities" 5.0%Q bug_reward;
  mret bug_reward.

(** [calculate_efficiency_reward] *)
Definition calculate_efficiency_reward (self : RewardCalculator)
    (episode_data : gmap string pyval) : result Q :=
  let efficiency_reward := 0.0%Q in
  (* Time efficiency *)
  episode_duration ← get_num episode_data "duration";
  let efficiency_reward :=
    if Qlt_bool episode_duration 60 then (efficiency_reward + 1.0)%Q
    else if Qlt_bool 300 episode_duration then (efficiency_reward - 0.5)%Q
    else efficiency_reward in
  (* Action efficiency *)
  total_actions ← get_num episode_data "total_actions";
  successful_actions ← get_num episode_data "successful_actions";
  let efficiency_reward :=
    if Qlt_bool 0 total_actions
    then
      let success_rate := (successful_actions / total_actions)%Q in
      if Qle_bool 0.8 success_rate then (efficiency_reward + 1.0)%Q
      else if Qlt_bool success_rate 0.5 then (efficiency_reward - 0.5)%Q
      else efficiency_reward
    else efficiency_reward in
  (* Coverage efficiency *)
  let coverage_per_action :=
    (page_coverage (coverage_metrics self) / py_max total_actions 1)%Q in
  mret (if Qlt_bool 0.01 coverage_per_action
        then (efficiency_reward + 0.5)%Q else efficiency_reward).

(** [calculate_total_reward] *)
Definition calculate_total_reward (self : RewardCalculator)
    (exploration_reward coverage_reward quality_reward bug_reward
       efficiency_reward : Q) : Q :=
  let total_reward :=
    (exploration_reward * (weights self !!! "exploration") +
     coverage_reward * (weights self !!! "coverage") +
     quality_reward * (weights self !!! "quality") +
     bug_reward * (weights self !!! "bug_discovery") +
     efficiency_reward * (weights self !!! "efficiency"))%Q in
  total_reward.

(** [get_metrics_summary]: the two inner dictionaries. *)
Definition get_metrics_summary (self : RewardCalculator)
  : gmap string Q * gmap string Q :=
  let cm := coverage_metrics self in
  let qm := quality_metrics self in
  (<["pages_visited" := Qnat (size (pages_visited cm))]> (
   <["elements_discovered" := Qnat (size (elements_discovered cm))]> (
   <["interactions_performed" := Qnat (size (interactions_performed cm))]> (
   <["page_coverage" := page_coverage cm]> (
   <["element_coverage" := element_coverage cm]> (
   <["interaction_coverage" := interaction_coverage cm]> ∅))))),
   <["test_diversity" := test_diversity qm]> (
   <["test_complexity" := test_complexity qm]> (
   <["assertion_coverage" := assertion_coverage qm]> (
   <["edge_case_coverage" := edge_case_coverage qm]> (
   <["bug_discovery_rate" := bug_discovery_rate qm]> ∅))))).

(** [reset_metrics] *)
Definition reset_metrics (self : RewardCalculator) : RewardCalculator :=
  {| coverage_metrics := fresh_coverage;
     quality_metrics := fresh_quality;
     weights := weights self;
     baseline_metrics := baseline_metrics self |}.

(** A call of one of the calculator's public methods, with its arguments. *)
Inductive method_call :=
  | CalculateExplorationReward (page_state : PageState) (action : string)
      (success : bool)
  | CalculateCoverageReward
  | CalculateTestQualityReward (test_scenario : TestScenario)
  | CalculateBugDiscoveryReward (test_results : gmap string pyval)
  | CalculateEfficiencyReward (episode_data : gmap string pyval)
  | CalculateTotalReward (e c q b f : Q)
  | GetMetricsSummary
  | ResetMetrics.

Definition is_reset (c : method_call) : bool :=
  match c with ResetMetrics => true | _ => false end.

(** The calculator after a call; the methods that only read it (and return
    or raise) leave it as it is. *)
Definition after `{Hashlib} (self : RewardCalculator) (c : method_call)
  : RewardCalculator :=
  match c with
  | CalculateExplorationReward page_state action success =>
      (calculate_exploration_reward self page_state action success).2
  | CalculateCoverageReward => (calculate_coverage_reward self).2
  | CalculateTestQualityReward _
  | CalculateBugDiscoveryReward _
  | CalculateEfficiencyReward _
  | CalculateTotalReward _ _ _ _ _
  | GetMetricsSummary => self
  | ResetMetrics => reset_metrics self
  end.

(** The calculator after a sequence of calls, oldest first. *)
Definition after_all `{Hashlib} (self : RewardCalculator)
    (calls : list method_call) : RewardCalculator :=
  foldl after self calls.

End reward_system.

(** ** marl_agents.py *)
Module marl_agents.
Import Py ui_state_representation reward_system.

(** [@dataclass Action] *)
Record Action := mkAction {
  action_type : string;
  target_element : option UIElement;
  value : option string;
  parameters : option (gmap string pyval);
}.

(** [Action(t)], [Action(t, element)], [Action(t, element, value)] *)
Definition Action1 (t : string) : Action := mkAction t None None None.
Definition Action2 (t : string) (e : UIElement) : Action :=
  mkAction t (Some e) None None.
Definition Action3 (t : string) (e : UIElement) (v : string) : Action :=
  mkAction t (Some e) (Some v) None.

(** PyTorch, as far as the agents use it.  A [module] is a network with its
    parameters; the networks are built with [nn.Dropout] layers and are never
    switched to evaluation mode, so a forward pass also depends on the
    dropout masks it draws ([noise]).  [forward] maps one input row to one
    output row and raises on a shape mismatch.  [minimize] is one
    [zero_grad(); loss.backward(); optimizer.step()] round on the mean
    squared error between the outputs gathered at [indices] and [targets]. *)
Class Torch := {
  module : Type;
  optimizer : Type;
  noise : Type;
  forward : module → noise → list Q → result (list Q);
  minimize : module → optimizer → noise → list (list Q) → list nat →
             list Q → result (module * optimizer);
  sample_categorical : noise → list Q → Z;
}.

(** What one call of [get_action] draws: [np.random.random()], the index
    [random.choice] picks, and the dropout masks of the forward pass. *)
Record entropy `{Torch} := mkEntropy {
  uniform : Q;
  pick : nat;
  dropout : noise;
}.

(** [random.choice(xs)] *)
Definition random_choice {A} (pick : nat) (xs : list A) : result A :=
  match xs !! (pick `mod` length xs) with
  | Some x => Ok x
  | None => Raise IndexError
  end.

(** [xs[i]] for a non-negative [i] *)
Definition getitem {A} (xs : list A) (i : nat) : result A :=
  match xs !! i with
  | Some x => Ok x
  | None => Raise IndexError
  end.

(** [np.argmax(xs)]: the first index holding the maximum. *)
Fixpoint argmax_from (best_idx : nat) (best : Q) (i : nat) (xs : list Q)
  : nat :=
  match xs with
  | [] => best_idx
  | x :: xs' =>
      if Qlt_bool best x
      then argmax_from i x (S i) xs'
      else argmax_from best_idx best (S i) xs'
  end.

Definition argmax (xs : list Q) : result nat :=
  match xs with
  | [] => Raise ValueError
  | x :: xs' => Ok (argmax_from 0 x 1 xs')
  end.

(** [[f(x) for x in xs]] where [f] may raise *)
Fixpoint traverse {A B} (f : A → result B) (xs : list A) : result (list B) :=
  match xs with
  | [] => Ok []
  | x :: xs' => y ← f x; ys ← traverse f xs'; mret (y :: ys)
  end.

Section agents.
Context `{Torch}.

(** An entry of the replay memory:
    [(state, action, reward, next_state, done)]. *)
Record experience := mkExperience {
  exp_state : list Q;
  exp_action : Action;
  exp_reward : Q;
  exp_next_state : list Q;
  exp_done : bool;
}.

(** [class ExplorationAgent] *)
Record ExplorationAgent := mkExplorationAgent {
  state_size : nat;
  action_size : nat;
  learning_rate : Q;
  epsilon : Q;
  epsilon_min : Q;
  epsilon_decay : Q;
  memory : list experience;
  memory_maxlen : nat;
  batch_size : nat;
  q_network : module;
  target_network : module;
  agent_optimizer : optimizer;
  action_types : list string;
  visited_pages : gset string;
  discovered_elements : gset string;
  interaction_history : list string;
}.

(** [ExplorationAgent.__init__]; the two freshly built networks and the
    optimizer are passed in. *)
#[warnings="-abstract-large-number"]
Definition ExplorationAgent_init (state_size action_size : nat)
    (learning_rate : Q) (q_network target_network : module)
    (opt : optimizer) : ExplorationAgent :=
  {| state_size := state_size;
     action_size := action_size;
     learning_rate := learning_rate;
     epsilon := 1.0;
     epsilon_min := 0.01;
     epsilon_decay := 0.995;
     memory := [];
     memory_maxlen := 10000;
     batch_size := 32;
     q_network := q_network;
     target_network := target_network;
     agent_optimizer := opt;
     action_types :=
       ["click"; "type"; "scroll_up"; "scroll_down"; "wait";
        "navigate_back"; "navigate_forward"; "refresh"; "hover"];
     visited_pages := ∅;
     discovered_elements := ∅;
     interaction_history := [] |}.

(** The score of one available action: [q_values[0][action_idx].item()]. *)
Definition action_score (self : ExplorationAgent) (q_values : list Q)
    (action : Action) : result Q :=
  action_idx ← index (action_type action) (action_types self);
  getitem q_values action_idx.

(** [get_action] *)
Definition get_action (self : ExplorationAgent) (rnd : entropy)
    (state : list Q) (available_actions : list Action) : result Action :=
  if Qle_bool (uniform rnd) (epsilon self)
  then
    (* Random exploration *)
    random_choice (pick rnd) available_actions
  else
    (* Exploitation using neural network *)
    q_values ← forward (q_network self) (dropout rnd) state;
    (* Map Q-values to available actions *)
    action_scores ← traverse (action_score self q_values) available_actions;
    best_action_idx ← argmax action_scores;
    getitem available_actions best_action_idx.

Definition with_memory (self : ExplorationAgent) (m : list experience)
  : ExplorationAgent :=
  {| state_size := state_size self;
     action_size := action_size self;
     learning_rate := learning_rate self;
     epsilon := epsilon self;
     epsilon_min := epsilon_min self;
     epsilon_decay := epsilon_decay self;
     memory := m;
     memory_maxlen := memory_maxlen self;
     batch_size := batch_size self;
     q_network := q_network self;
     target_network := target_network self;
     agent_optimizer := agent_optimizer self;
     action_types := action_types self;
     visited_pages := visited_pages self;
     discovered_elements := discovered_elements self;
     interaction_history := interaction_history self |}.

(** [deque(maxlen=n).append(x)]: the oldest entries make room. *)
Definition deque_append {A} (maxlen : nat) (q : list A) (x : A) : list A :=
  let q' := q ++ [x] in
  drop (length q' - maxlen) q'.

(** [remember] *)
Definition remember (self : ExplorationAgent) (state : list Q)
    (action : Action) (reward : Q) (next_state : list Q) (done : bool)
  : ExplorationAgent :=
  with_memory self
    (deque_append (memory_maxlen self) (memory self)
       (mkExperience state action reward next_state done)).

(** What one call of [replay] draws: the positions [random.sample] selects
    and the dropout masks of the three forward passes. *)
Record replay_entropy := mkReplayEntropy {
  sampled : list nat;
  online_noise : noise;
  target_noise : noise;
}.

(** [max] of a row of Q-values ([torch.max(..., dim=1)[0]]); the networks'
    output rows are never empty. *)
Definition row_max (row : list Q) : Q :=
  match row with
  | [] => 0%Q
  | x :: xs => foldl py_max x xs
  end.

(** [replay] *)
Definition replay (self : ExplorationAgent) (rnd : replay_entropy)
  : result ExplorationAgent :=
  if (length (memory self) <? batch_size self)%nat
  then Ok self
  else
    batch ← traverse (getitem (memory self)) (sampled rnd);
    let states := exp_state <$> batch in
    let actions := exp_action <$> batch in
    let rewards := exp_reward <$> batch in
    let next_states := exp_next_state <$> batch in
    let dones := exp_done <$> batch in
    next_q_values ←
      traverse (forward (target_network self) (target_noise rnd)) next_states;
    let target_q_values :=
      zip_with
        (λ (r : Q) (next : list Q * bool),
           (r + 0.95 * row_max next.1 * (if next.2 then 0 else 1))%Q)
        rewards (zip next_q_values dones) in
    action_indices ←
      traverse (λ a, index (action_type a) (action_types self)) actions;
    '(q', opt') ←
      minimize (q_network self) (agent_optimizer self) (online_noise rnd)
        states action_indices target_q_values;
    (* Update epsilon *)
    let epsilon' :=
      if Qlt_bool (epsilon_min self) (epsilon self)
      then (epsilon self * epsilon_decay self)%Q
      else epsilon self in
    Ok {| state_size := state_size self;
          action_size := action_size self;
          learning_rate := learning_rate self;
          epsilon := epsilon';
          epsilon_min := epsilon_min self;
          epsilon_decay := epsilon_decay self;
          memory := memory self;
          memory_maxlen := memory_maxlen self;
          batch_size := batch_size self;
          q_network := q';
          target_network := target_network self;
          agent_optimizer := opt';
          action_types := action_types self;
          visited_pages := visited_pages self;
          discovered_elements := discovered_elements self;
          interaction_history := interaction_history self |}.

(** [update_target_network] *)
Definition update_target_network (self : ExplorationAgent)
  : ExplorationAgent :=
  {| state_size := state_size self;
     action_size := action_size self;
     learning_rate := learning_rate self;
     epsilon := epsilon self;
     epsilon_min := epsilon_min self;
     epsilon_decay := epsilon_decay self;
     memory := memory self;
     memory_maxlen := memory_maxlen self;
     batch_size := batch_size self;
     q_network := q_network self;
     target_network := q_network self;
     agent_optimizer := agent_optimizer self;
     action_types := action_types self;
     visited_pages := visited_pages self;
     discovered_elements := discovered_elements self;
     interaction_history := interaction_history self |}.

(** The body of the element loop of [get_available_actions]. *)
Definition element_actions (element : UIElement) : list Action :=
  if is_interactable element
  then
    if String.eqb (element_type element) "button"
    then [Action2 "click" element]
    else if String.eqb (element_type element) "input"
    then [Action3 "type" element "test_input"]
    else if String.eqb (element_type element) "link"
    then [Action2 "click" element]
    else []
  else [].

(** [get_available_actions] *)
Definition get_available_actions (page_state : PageState) : list Action :=
  let actions := [] in
  (* Add click actions for interactable elements *)
  let actions :=
    foldl (λ actions element, actions ++ element_actions element)
      actions (elements page_state) in
  (* Add navigation actions *)
  actions ++
    [ Action1 "scroll_up";
      Action1 "scroll_down";
      Action1 "wait";
      Action1 "navigate_back";
      Action1 "refresh" ].

(** [class TestGenerationAgent] *)
Record TestGenerationAgent := mkTestGenerationAgent {
  tg_state_size : nat;
  tg_action_size : nat;
  tg_learning_rate : Q;
  actor : module;
  actor_optimizer : optimizer;
  critic : module;
  critic_optimizer : optimizer;
  test_patterns : list string;
  generated_tests : list TestScenario;
  test_quality_scores : list Q;
}.

(** [TestGenerationAgent.__init__] *)
Definition TestGenerationAgent_init (state_size action_size : nat)
    (learning_rate : Q) (actor critic : module)
    (actor_optimizer critic_optimizer : optimizer) : TestGenerationAgent :=
  {| tg_state_size := state_size;
     tg_action_size := action_size;
     tg_learning_rate := learning_rate;
     actor := actor;
     actor_optimizer := actor_optimizer;
     critic := critic;
     critic_optimizer := critic_optimizer;
     test_patterns :=
       ["login_flow"; "registration_flow"; "product_search"; "add_to_basket";
        "checkout_flow"; "user_profile"; "admin_functions"; "error_handling";
        "security_tests"; "accessibility_tests"];
     generated_tests := [];
     test_quality_scores := [] |}.

(** The [exploration_data] dictionary handed to the test generator; every
    caller in the repository supplies its three keys. *)
Record ExplorationData := mkExplorationData {
  ui_state : list Q;
  coverage : gmap string Q;
  quality : gmap string Q;
}.

(** [_prepare_state] *)
Definition _prepare_state (self : TestGenerationAgent)
    (exploration_data : ExplorationData) : list Q :=
  let coverage_data := coverage exploration_data in
  let quality_metrics := quality exploration_data in
  let state_vector :=
    ui_state exploration_data ++
    [default 0.0%Q (coverage_data !! "page_coverage")] ++
    [default 0.0%Q (coverage_data !! "element_coverage")] ++
    [default 0.0%Q (quality_metrics !! "test_diversity")] ++
    [default 0.0%Q (quality_metrics !! "bug_discovery_rate")] in
  (* Pad or truncate to fixed size *)
  if (length state_vector <? tg_state_size self)%nat
  then state_vector ++ zeros (tg_state_size self - length state_vector)
  else take (tg_state_size self) state_vector.

(** A dictionary literal with distinct keys. *)
Definition dict (items : list (string * pyval)) : gmap string pyval :=
  list_to_map items.

(** [_create_test_scenario] *)
Definition _create_test_scenario (self : TestGenerationAgent) (action : Z)
    (exploration_data : ExplorationData) : result TestScenario :=
  let n := length (test_patterns self) in
  if (n =? 0)%nat then Raise ZeroDivisionError else
  pattern ←
    getitem (test_patterns self) (Z.to_nat (action `mod` Z.of_nat n));
  let test_scenario :=
    {| name :=
         "marl_generated_" +:+ pattern +:+ "_" +:+
         pretty (length (generated_tests self));
       reward_system.pattern := pattern;
       steps := [];
       assertions := [];
       test_data := ∅;
       expected_outcome := EmptyString;
       priority := "medium" |} in
  let fill (steps assertions : list (gmap string pyval)) : TestScenario :=
    {| name := name test_scenario;
       reward_system.pattern := reward_system.pattern test_scenario;
       reward_system.steps := steps;
       reward_system.assertions := assertions;
       test_data := test_data test_scenario;
       expected_outcome := expected_outcome test_scenario;
       priority := priority test_scenario |} in
  (* Generate test steps based on pattern *)
  if String.eqb pattern "login_flow"
  then
    mret (fill
      [ dict [("action", PyStr "navigate"); ("target", PyStr "/login")];
        dict [("action", PyStr "type"); ("target", PyStr "email");
              ("value", PyStr "test@example.com")];
        dict [("action", PyStr "type"); ("target", PyStr "password");
              ("value", PyStr "password123")];
        dict [("action", PyStr "click"); ("target", PyStr "login_button")] ]
      [ dict [("type", PyStr "url_contains"); ("value", PyStr "/search")];
        dict [("type", PyStr "element_visible");
              ("target", PyStr "user_menu")] ])
  else if String.eqb pattern "product_search"
  then
    mret (fill
      [ dict [("action", PyStr "navigate"); ("target", PyStr "/search")];
        dict [("action", PyStr "type"); ("target", PyStr "search_input");
              ("value", PyStr "apple")];
        dict [("action", PyStr "click"); ("target", PyStr "search_button")];
        dict [("action", PyStr "wait"); ("duration", PyNum 2)] ]
      [ dict [("type", PyStr "element_count");
              ("target", PyStr ".product-card"); ("min", PyNum 1)];
        dict [("type", PyStr "text_contains");
              ("target", PyStr ".search-results");
              ("value", PyStr "apple")] ])
  else if String.eqb pattern "add_to_basket"
  then
    mret (fill
      [ dict [("action", PyStr "navigate"); ("target", PyStr "/search")];
        dict [("action", PyStr "click");
              ("target", PyStr ".product-card:first-child")];
        dict [("action", PyStr "click");
              ("target", PyStr ".add-to-basket-button")];
        dict [("action", PyStr "click");
              ("target", PyStr ".basket-button")] ]
      [ dict [("type", PyStr "element_visible");
              ("target", PyStr ".basket-item")];
        dict [("type", PyStr "text_contains");
              ("target", PyStr ".basket-count"); ("value", PyStr "1")] ])
  else mret test_scenario.

(** [generate_test] *)
Definition generate_test (self : TestGenerationAgent) (rnd : noise)
    (exploration_data : ExplorationData) : result TestScenario :=
  let state := _prepare_state self exploration_data in
  (* Get action probabilities from actor *)
  action_probs ← forward (actor self) rnd state;
  let action := sample_categorical rnd action_probs in
  (* Generate test based on selected action *)
  _create_test_scenario self action exploration_data.

End agents.

Section system.
Context `{Torch} `{WebDriver}.

(** [class MARLSystem] *)
Record MARLSystem := mkMARLSystem {
  state_representation : UIStateRepresentation;
  exploration_agent : ExplorationAgent;
  test_generation_agent : TestGenerationAgent;
  episode_count : nat;
  max_episodes : nat;
  update_frequency : nat;
  episode_rewards : list Q;
  coverage_history : list Q;
  test_quality_history : list Q;
}.

(** [MARLSystem.__init__], given the two agents it builds. *)
Definition MARLSystem_init (explorer : ExplorationAgent)
    (generator : TestGenerationAgent) : MARLSystem :=
  {| state_representation := default_representation;
     exploration_agent := explorer;
     test_generation_agent := generator;
     episode_count := 0;
     max_episodes := 1000;
     update_frequency := 10;
     episode_rewards := [];
     coverage_history := [];
     test_quality_history := [] |}.

Definition with_agent (self : MARLSystem) (a : ExplorationAgent)
  : MARLSystem :=
  {| state_representation := state_representation self;
     exploration_agent := a;
     test_generation_agent := test_generation_agent self;
     episode_count := episode_count self;
     max_episodes := max_episodes self;
     update_frequency := update_frequency self;
     episode_rewards := episode_rewards self;
     coverage_history := coverage_history self;
     test_quality_history := test_quality_history self |}.

(** [_get_page_state] *)
Definition _get_page_state (self : MARLSystem) (d : driver) : PageState :=
  let elements := extract_elements (state_representation self) d in
  let page_type :=
    get_page_type (current_url d) (driver_title d) elements in
  {| url := current_url d;
     title := driver_title d;
     elements := elements;
     user_context := ∅;
     page_type := page_type;
     timestamp := 0.0 |}.

(** [_get_current_state] *)
Definition _get_current_state (self : MARLSystem) (d : driver)
  : result (list Q) :=
  let page_state := _get_page_state self d in
  state_to_vector (state_representation self) page_state.

(** [driver.get(url)], outside any [try] *)
Definition driver_get (d : driver) (target : string) : result driver :=
  let '(d, ok) := perform d (Get target) in
  if ok then Ok d else Raise WebDriverException.

(** [_get_initial_state] *)
Definition _get_initial_state (self : MARLSystem) (d : driver)
  : result (list Q * driver) :=
  d ← driver_get d "http://localhost:3000";
  v ← _get_current_state self d;
  mret (v, d).

(** A browser command inside [try: ... except Exception]: the reward when
    it goes through, [-0.5] when it raises. *)
Definition attempt (d : driver) (c : command) (reward : Q) : driver * Q :=
  let '(d, ok) := perform d c in
  (d, if ok then reward else (-0.5)%Q).

(** [_execute_action] *)
Definition _execute_action (d : driver) (action : Action) : driver * Q :=
  match action_type action, target_element action with
  | "click", Some target => attempt d (Click (xpath target)) 1.0
  | "type", Some target =>
      attempt d (ClearAndSendKeys (xpath target) (value action)) 0.5
  | t, _ =>
      if String.eqb t "scroll_up" then attempt d (ScrollBy (-300)) 0.1
      else if String.eqb t "scroll_down" then attempt d (ScrollBy 300) 0.1
      else if String.eqb t "wait" then attempt d (Sleep 1) 0.0
      else (d, (-0.1)%Q)
  end.

(** [_is_episode_done] *)
Definition _is_episode_done (d : driver) (step : nat) : bool :=
  (50 <=? step)%nat || contains "error" (lower (current_url d)).

(** [_evaluate_test_quality] *)
Definition _evaluate_test_quality (self : MARLSystem)
    (test_scenario : TestScenario) : Q :=
  let quality_score := 0.0%Q in
  (* Check test completeness *)
  let quality_score :=
    if (0 <? length (steps test_scenario))%nat
    then (quality_score + 0.3)%Q else quality_score in
  let quality_score :=
    if (0 <? length (assertions test_scenario))%nat
    then (quality_score + 0.3)%Q else quality_score in
  (* Check test diversity *)
  let quality_score :=
    if negb (in_list (pattern test_scenario)
               (pattern <$> generated_tests (test_generation_agent self)))
    then (quality_score + 0.2)%Q else quality_score in
  (* Check test complexity *)
  if (3 <=? length (steps test_scenario))%nat
  then (quality_score + 0.2)%Q else quality_score.

(** How the exploration loop of an episode was left. *)
Inductive loop_exit :=
  | NoActionsAvailable  (* [if not available_actions: break] *)
  | EpisodeDone         (* [if done: break] *)
  | RangeExhausted.     (* the [for] ran through [range(50)] *)

(** The variables the exploration loop carries. *)
Record exploration := mkExploration {
  ex_agent : ExplorationAgent;
  ex_driver : driver;
  current_state : list Q;
  episode_reward : Q;
}.

(** The exploration loop of [train_episode], over the step numbers still to
    run. *)
Fixpoint exploration_phase (self : MARLSystem) (rnd : nat → entropy)
    (steps : list nat) (st : exploration) : result (loop_exit * exploration) :=
  match steps with
  | [] => Ok (RangeExhausted, st)
  | step :: steps' =>
      let page_state := _get_page_state self (ex_driver st) in
      let available_actions := get_available_actions page_state in
      match available_actions with
      | [] => Ok (NoActionsAvailable, st)
      | _ =>
          action ← get_action (ex_agent st) (rnd step) (current_state st)
                     available_actions;
          let '(d, reward) := _execute_action (ex_driver st) action in
          next_state ← _get_current_state self d;
          let done := _is_episode_done d step in
          let agent :=
            remember (ex_agent st) (current_state st) action reward
              next_state done in
          let st' :=
            {| ex_agent := agent;
               ex_driver := d;
               current_state := next_state;
               episode_reward := (episode_reward st + reward)%Q |} in
          if done then Ok (EpisodeDone, st')
          else exploration_phase self rnd steps' st'
      end
  end.

(** What an episode draws. *)
Record episode_entropy := mkEpisodeEntropy {
  step_entropy : nat → entropy;
  generation_noise : noise;
  replay_draw : replay_entropy;
}.

(** The dictionary [train_episode] returns. *)
Record episode_metrics := mkEpisodeMetrics {
  m_episode_reward : Q;
  m_test_quality : Q;
  m_coverage : Q;
}.

(** [train_episode] *)
Definition train_episode (self : MARLSystem) (rnd : episode_entropy)
    (d : driver) : result (episode_metrics * MARLSystem * driver) :=
  let episode_count := S (episode_count self) in
  (* Start exploration *)
  '(current_state, d) ← _get_initial_state self d;
  let exploration_data :=
    {| ui_state := current_state;
       coverage :=
         <["page_coverage" := 0.0%Q]> (<["element_coverage" := 0.0%Q]> ∅);
       quality :=
         <["test_diversity" := 0.0%Q]> (
         <["bug_discovery_rate" := 0.0%Q]> ∅) |} in
  (* Exploration phase *)
  '(_, st) ← exploration_phase self (step_entropy rnd) (seq 0 50)
    {| ex_agent := exploration_agent self;
       ex_driver := d;
       current_state := current_state;
       episode_reward := 0.0 |};
  (* Test generation phase *)
  test_scenario ←
    generate_test (test_generation_agent self) (generation_noise rnd)
      exploration_data;
  let test_quality := _evaluate_test_quality self test_scenario in
  (* Update agents *)
  agent ←
    (if (episode_count `mod` update_frequency self =? 0)%nat
     then update_target_network <$> replay (ex_agent st) (replay_draw rnd)
     else Ok (ex_agent st));
  (* Store metrics *)
  mret
    ({| m_episode_reward := episode_reward st;
        m_test_quality := test_quality;
        m_coverage := default 0%Q (coverage exploration_data !! "page_coverage") |},
     {| state_representation := state_representation self;
        exploration_agent := agent;
        test_generation_agent := test_generation_agent self;
        episode_count := episode_count;
        max_episodes := max_episodes self;
        update_frequency := update_frequency self;
        episode_rewards := episode_rewards self ++ [episode_reward st];
        coverage_history := coverage_history self;
        test_quality_history :=
          test_quality_history self ++ [test_quality] |},
     ex_driver st).

End system.
End marl_agents.

(** ** train_marl.py *)
Module train_marl.
Import Py ui_state_representation reward_system marl_agents.

Section trainer.
Context `{Torch} `{WebDriver} `{Hashlib}.

(** [self.training_history] *)
Record TrainingHistory := mkTrainingHistory {
  h_episode_rewards : list Q;
  h_coverage_history : list Q;
  h_test_quality_history : list Q;
  h_bug_discovery_history : list Q;
  h_efficiency_history : list Q;
}.

(** [class MARLTrainer]: the fields [_train_episode] touches. *)
Record MARLTrainer := mkMARLTrainer {
  marl_system : MARLSystem;
  reward_calculator : RewardCalculator;
  training_history : TrainingHistory;
  trainer_driver : driver;
}.

(** The [episode_data] dictionary. *)
Record EpisodeData := mkEpisodeData {
  total_actions : Q;
  successful_actions : Q;
  exploration_reward : Q;
  coverage_reward : Q;
  quality_reward : Q;
  bug_reward : Q;
  efficiency_reward : Q;
  duration : Q;
  total_reward : Q;
}.

Definition as_dict (e : EpisodeData) : gmap string pyval :=
  dict
    [ ("total_actions", PyNum (total_actions e));
      ("successful_actions", PyNum (successful_actions e));
      ("exploration_reward", PyNum (exploration_reward e));
      ("coverage_reward", PyNum (coverage_reward e));
      ("quality_reward", PyNum (quality_reward e));
      ("bug_reward", PyNum (bug_reward e));
      ("efficiency_reward", PyNum (efficiency_reward e));
      ("duration", PyNum (duration e));
      ("total_reward", PyNum (total_reward e)) ].

(** A browser command inside [try: ... except Exception: return False]. *)
Definition attempt_safely (d : driver) (c : command) : driver * bool :=
  perform d c.

(** [_execute_action_safely] *)
Definition _execute_action_safely (d : driver) (action : Action)
  : driver * bool :=
  match action_type action, target_element action with
  | "click", Some target => attempt_safely d (Click (xpath target))
  | "type", Some target =>
      attempt_safely d
        (ClearAndSendKeys (xpath target)
           (Some (default EmptyString (value action))))
  | t, _ =>
      if String.eqb t "scroll_up" then attempt_safely d (ScrollBy (-300))
      else if String.eqb t "scroll_down" then attempt_safely d (ScrollBy 300)
      else if String.eqb t "wait" then attempt_safely d (Sleep 0.5)
      else if String.eqb t "navigate_back" then attempt_safely d GoBack
      else if String.eqb t "refresh" then attempt_safely d Refresh
      else (d, false)
  end.

(** What [_simulate_test_execution] draws. *)
Record simulation_entropy := mkSimulationEntropy {
  sim_uniform : Q;
  sim_key : nat;
  sim_count : Z;
}.

(** [_simulate_test_execution] *)
Definition _simulate_test_execution (rnd : simulation_entropy)
    (test_scenario : TestScenario) : result (gmap string pyval) :=
  let keys :=
    ["failed_assertions"; "javascript_errors"; "accessibility_issues";
     "performance_issues"; "security_vulnerabilities"] in
  let results : gmap string pyval :=
    list_to_map ((λ k, (k, PyNum 0)) <$> keys) in
  if Qlt_bool (sim_uniform rnd) 0.1
  then
    key ← random_choice (sim_key rnd) keys;
    mret (<[key := PyNum (inject_Z (sim_count rnd))]> results)
  else mret results.

(** The variables the exploration loop of [_train_episode] carries. *)
Record trainer_loop := mkTrainerLoop {
  tl_agent : ExplorationAgent;
  tl_calculator : RewardCalculator;
  tl_driver : driver;
  tl_current_state : list Q;
  tl_episode_data : EpisodeData;
}.

(** The exploration loop of [_train_episode]. *)
Fixpoint trainer_phase (system : MARLSystem) (rnd : nat → entropy)
    (steps : list nat) (st : trainer_loop)
  : result (loop_exit * trainer_loop) :=
  match steps with
  | [] => Ok (RangeExhausted, st)
  | step :: steps' =>
      let page_state := _get_page_state system (tl_driver st) in
      let available_actions := get_available_actions page_state in
      match available_actions with
      | [] => Ok (NoActionsAvailable, st)
      | _ =>
          action ← get_action (tl_agent st) (rnd step) (tl_current_state st)
                     available_actions;
          let '(d, success) := _execute_action_safely (tl_driver st) action in
          let e := tl_episode_data st in
          let '(reward, calculator) :=
            calculate_exploration_reward (tl_calculator st) page_state
              (action_type action) success in
          let e :=
            {| total_actions := (total_actions e + 1)%Q;
               successful_actions :=
                 if success then (successful_actions e + 1)%Q
                 else successful_actions e;
               exploration_reward := (exploration_reward e + reward)%Q;
               coverage_reward := coverage_reward e;
               quality_reward := quality_reward e;
               bug_reward := bug_reward e;
               efficiency_reward := efficiency_reward e;
               duration := duration e;
               total_reward := total_reward e |} in
          next_state ← _get_current_state system d;
          let agent :=
            remember (tl_agent st) (tl_current_state st) action reward
              next_state false in
          let '(d, _) := perform d (Sleep 0.2) in
          trainer_phase system rnd steps'
            {| tl_agent := agent;
               tl_calculator := calculator;
               tl_driver := d;
               tl_current_state := next_state;
               tl_episode_data := e |}
      end
  end.

(** What a trainer episode draws, and the two clock readings. *)
Record trainer_entropy := mkTrainerEntropy {
  t_steps : nat → entropy;
  t_generation : noise;
  t_simulation : simulation_entropy;
  t_replay : replay_entropy;
  t_start : Q;
  t_end : Q;
}.

(** [_train_episode] *)
Definition _train_episode (self : MARLTrainer) (rnd : trainer_entropy)
    (episode : nat) : result (EpisodeData * MARLTrainer) :=
  let start := t_start rnd in
  d ← driver_get (trainer_driver self) "http://localhost:3000";
  let calculator := reset_metrics (reward_calculator self) in
  let episode_data :=
    {| total_actions := 0;
       successful_actions := 0;
       exploration_reward := 0.0;
       coverage_reward := 0.0;
       quality_reward := 0.0;
       bug_reward := 0.0;
       efficiency_reward := 0.0;
       duration := 0.0;
       total_reward := 0.0 |} in
  let system := marl_system self in
  current_state ← _get_current_state system d;
  '(_, st) ← trainer_phase system (t_steps rnd) (seq 0 50)
    {| tl_agent := exploration_agent system;
       tl_calculator := calculator;
       tl_driver := d;
       tl_current_state := current_state;
       tl_episode_data := episode_data |};
  let e := tl_episode_data st in
  let '(coverage_reward, calculator) :=
    calculate_coverage_reward (tl_calculator st) in
  efficiency_reward ←
    calculate_efficiency_reward calculator
      (<["coverage_reward" := PyNum coverage_reward]> (as_dict e));
  let summary := get_metrics_summary calculator in
  let exploration_data :=
    {| ui_state := tl_current_state st;
       coverage := summary.1;
       quality := summary.2 |} in
  test_scenario ←
    generate_test (test_generation_agent system) (t_generation rnd)
      exploration_data;
  quality_reward ← calculate_test_quality_reward test_scenario;
  test_results ← _simulate_test_execution (t_simulation rnd) test_scenario;
  bug_reward ← calculate_bug_discovery_reward test_results;
  let total_reward :=
    calculate_total_reward calculator (exploration_reward e) coverage_reward
      quality_reward bug_reward efficiency_reward in
  let duration := (t_end rnd - start)%Q in
  agent ←
    (if (S episode `mod` 10 =? 0)%nat
     then update_target_network <$> replay (tl_agent st) (t_replay rnd)
     else Ok (tl_agent st));
  mret
    ({| total_actions := total_actions e;
        successful_actions := successful_actions e;
        exploration_reward := exploration_reward e;
        coverage_reward := coverage_reward;
        quality_reward := quality_reward;
        bug_reward := bug_reward;
        efficiency_reward := efficiency_reward;
        duration := duration;
        total_reward := total_reward |},
     {| marl_system := with_agent system agent;
        reward_calculator := calculator;
        training_history := training_history self;
        trainer_driver := tl_driver st |}).

End trainer.
End train_marl.

(** ** cypress_integration.py *)
Module cypress_integration.
Import Py reward_system.

(** [s.endswith(suffix)] *)
Definition endswith (suffix s : string) : bool :=
  let n := String.length s in
  let k := String.length suffix in
  (k <=? n)%nat && String.eqb (substring (n - k) k s) suffix.

(** [s[:-k]] for a positive [k] *)
Definition drop_last (k : nat) (s : string) : string :=
  substring 0 (String.length s - k) s.

(** The file name [save_test_file] settles on before it writes;
    [timestamp] is [datetime.now().strftime('%Y%m%d_%H%M%S')]. *)
Definition test_filename (filename : option string) (timestamp : string)
  : string :=
  match filename with
  | None | Some EmptyString =>
      "marl_generated_tests_" +:+ timestamp +:+ ".spec.ts"
  | Some filename =>
      if negb (endswith ".spec.ts" filename)
      then
        if endswith ".ts" filename
        then drop_last 3 filename +:+ ".spec.ts"
        else filename +:+ ".spec.ts"
      else filename
  end.

(** The [descriptions] table of [_generate_test_description]. *)
Definition descriptions : gmap string string :=
  list_to_map
    [ ("login_flow", "should successfully complete login flow");
      ("registration_flow", "should successfully complete user registration");
      ("product_search", "should search for products and display results");
      ("add_to_basket", "should add product to shopping basket");
      ("checkout_flow", "should complete checkout process");
      ("user_profile", "should access and modify user profile");
      ("admin_functions", "should perform administrative functions");
      ("error_handling", "should handle error conditions properly");
      ("security_tests", "should validate security measures");
      ("accessibility_tests", "should meet accessibility requirements") ].

(** [_generate_test_description] *)
Definition _generate_test_description (scenario : TestScenario) : string :=
  let pattern := pattern scenario in
  default "should perform automated test scenario" (descriptions !! pattern).

End cypress_integration.

(** ** Notions used in the statements *)
Module notions.
Import Py ui_state_representation reward_system marl_agents train_marl.

(** The values a numeric entry of [user_context] may hold. *)
Definition numeric (v : option pyval) : Prop :=
  match v with
  | Some PyNone | Some (PyStr _) => False
  | _ => True
  end.

(** The five navigation actions [get_available_actions] always appends. *)
Definition navigation_actions : list Action :=
  [ Action1 "scroll_up"; Action1 "scroll_down"; Action1 "wait";
    Action1 "navigate_back"; Action1 "refresh" ].

(** The key under which [calculate_exploration_reward] files an interaction:
    the target element does not enter it. *)
Definition interaction_key_of `{Hashlib} (page_state : PageState) (action : string)
  : string :=
  _hash_page page_state +:+ "_" +:+ action +:+ "_" +:+ "unknown".

(** The reward of a call that discovers nothing. *)
Definition plain_reward (action : string) (success : bool) : Q :=
  let reward := if success then (0.0 + 1.0)%Q else (0.0 - 0.5)%Q in
  if in_list action ["wait"; "scroll_up"; "scroll_down"]
  then (reward - 0.1)%Q else reward.

(** The stored ratios never exceed what the current sets give. *)
Definition ratios_bounded (self : RewardCalculator) : Prop :=
  let cm := coverage_metrics self in
  (page_coverage cm <= ratio self (pages_visited cm) "total_pages")%Q ∧
  (element_coverage cm
   <= ratio self (elements_discovered cm) "total_elements")%Q ∧
  (interaction_coverage cm
   <= ratio self (interactions_performed cm) "total_interactions")%Q.

(** The sets and the stored ratios of [b] are those of [a] or larger. *)
Definition coverage_le (a b : RewardCalculator) : Prop :=
  let ca := coverage_metrics a in
  let cb := coverage_metrics b in
  pages_visited ca ⊆ pages_visited cb ∧
  elements_discovered ca ⊆ elements_discovered cb ∧
  interactions_performed ca ⊆ interactions_performed cb ∧
  (page_coverage ca <= page_coverage cb)%Q ∧
  (element_coverage ca <= element_coverage cb)%Q ∧
  (interaction_coverage ca <= interaction_coverage cb)%Q.

(** The baseline totals are still those [__init__] wrote. *)
Definition constants_intact (self : RewardCalculator) : Prop :=
  baseline_metrics self = baseline_metrics RewardCalculator_init.

(** [i] is the first position of [scores] that holds their maximum. *)
Definition first_maximum (scores : list Q) (i : nat) : Prop :=
  ∃ best,
    scores !! i = Some best ∧
    (∀ j s, scores !! j = Some s → (s <= best)%Q) ∧
    (∀ j s, (j < i)%nat → scores !! j = Some s → (s < best)%Q).

(** [get_action] exploits: the forward pass and the score lookups go
    through, and the action returned is the available action at the first
    position whose score is maximal. *)
Definition exploits `{Torch} (self : ExplorationAgent) (rnd : entropy)
    (state : list Q) (available_actions : list Action) : Prop :=
  ∃ q_values scores i action,
    forward (q_network self) (dropout rnd) state = Ok q_values ∧
    traverse (action_score self q_values) available_actions = Ok scores ∧
    first_maximum scores i ∧
    available_actions !! i = Some action ∧
    get_action self rnd state available_actions = Ok action.

End notions.

(** ** Concrete collaborators

    Small instances of the three external collaborators, on which the
    statements below are exercised: a digest that is the identity, networks
    that ignore their input and answer with a stored output row (all weights
    zero, the row being the last layer's bias), and a browser showing one
    static page with a single button. *)
Module fixtures.
Import Py ui_state_representation reward_system marl_agents train_marl.

Definition plain_digest : Hashlib := {| md5_hexdigest := λ s, s |}.

Definition bias_networks : Torch :=
  {| module := list Q;
     optimizer := unit;
     noise := unit;
     forward := λ bias _ _, Ok bias;
     minimize := λ bias opt _ _ _ _, Ok (bias, opt);
     sample_categorical := λ _ _, 0%Z |}.

Definition go_button : UIElement :=
  {| tag := "button";
     text := "Go";
     attributes := {["id" := "go"]};
     position := ∅;
     is_visible := true;
     is_enabled := true;
     is_interactable := true;
     element_type := "button";
     xpath := "id(go)";
     css_selector := "#go" |}.

Definition static_page : WebDriver :=
  {| driver := unit;
     current_url := λ _, "http://localhost:3000/#/";
     driver_title := λ _, "OWASP Juice Shop";
     displayed_elements := λ _, [go_button];
     perform := λ d _, (d, true) |}.

Definition home_page : PageState :=
  {| url := "http://localhost:3000/#/";
     title := "OWASP Juice Shop";
     elements := [go_button];
     user_context := ∅;
     page_type := "general";
     timestamp := 0.0 |}.

(** Output rows of length 20 (the default [action_size]). *)
Definition flat_row : list Q := replicate 20 0%Q.

Definition fresh_explorer : @ExplorationAgent bias_networks :=
  @ExplorationAgent_init bias_networks 200 20 0.001 flat_row flat_row tt.

Definition fresh_generator : @TestGenerationAgent bias_networks :=
  @TestGenerationAgent_init bias_networks 200 20 0.001 flat_row flat_row
    tt tt.

Definition fresh_system : @MARLSystem bias_networks :=
  @MARLSystem_init bias_networks fresh_explorer fresh_generator.

Definition no_replay_draw : @replay_entropy bias_networks :=
  @mkReplayEntropy bias_networks [] tt tt.

(** An agent whose [epsilon] was set to [0] and whose network scores
    [scroll_up] (index 2) at 5 and [scroll_down] (index 3) at 1. *)
Definition scroll_row : list Q := [0; 0; 5; 1]%Q ++ replicate 16 0%Q.

Definition greedy_explorer : @ExplorationAgent bias_networks :=
  {| state_size := 200;
     action_size := 20;
     learning_rate := 0.001;
     epsilon := 0;
     epsilon_min := 0.01;
     epsilon_decay := 0.995;
     memory := [];
     memory_maxlen := memory_maxlen fresh_explorer;
     batch_size := 32;
     q_network := scroll_row : @module bias_networks;
     target_network := scroll_row : @module bias_networks;
     agent_optimizer := tt : @optimizer bias_networks;
     action_types := action_types fresh_explorer;
     visited_pages := ∅;
     discovered_elements := ∅;
     interaction_history := [] |}.

Definition two_scrolls : list Action :=
  [Action1 "scroll_up"; Action1 "scroll_down"].

(** The draw [np.random.random() = 0.0] with [random.choice] picking the
    second candidate, and a draw of one half. *)
Definition zero_draw : @entropy bias_networks :=
  @mkEntropy bias_networks 0 1 tt.
Definition half_draw : @entropy bias_networks :=
  @mkEntropy bias_networks 0.5 0 tt.

Definition steady_entropy : @episode_entropy bias_networks :=
  @mkEpisodeEntropy bias_networks (λ _, half_draw) tt no_replay_draw.

Definition no_data : ExplorationData :=
  {| ui_state := []; coverage := ∅; quality := ∅ |}.

End fixtures.

(** ** Notions used in the further statements *)
Module layout.
Import Py ui_state_representation reward_system marl_agents train_marl.

(** How many elements have the given type. *)
Definition type_count (t : string) (els : list UIElement) : nat :=
  length (filter (λ e, element_type e = t) els).

(** [user_context.get(key, 0) / d] when the entry is a number. *)
Definition scaled_value (ctx : gmap string pyval) (key : string) (d : Q)
  : Q :=
  match ctx !! key with
  | Some (PyNum q) => (q / d)%Q
  | Some (PyBool b) => ((if b then 1 else 0) / d)%Q
  | _ => (0 / d)%Q
  end.

(** The ten page-context entries. *)
Definition page_block (n : nat) (ps : PageState) : list Q :=
  let ctx := user_context ps in
  [ (Qnat (length (elements ps)) / Qnat n)%Q;
    indicator (contains "login" (page_type ps));
    indicator (contains "product" (page_type ps));
    indicator (contains "basket" (page_type ps));
    indicator (contains "admin" (page_type ps));
    (Qnat (String.length (url ps)) / 100.0)%Q;
    indicator (flag ctx "logged_in");
    indicator (flag ctx "is_admin");
    indicator (flag ctx "has_items_in_basket");
    indicator (flag ctx "is_deluxe_user") ].

(** The five user-context entries. *)
Definition user_block (ps : PageState) : list Q :=
  let ctx := user_context ps in
  [ scaled_value ctx "user_id" 1000.0;
    scaled_value ctx "session_duration" 3600.0;
    scaled_value ctx "page_views" 100.0;
    scaled_value ctx "failed_logins" 10.0;
    scaled_value ctx "successful_actions" 50.0 ].

(** The whole vector: a block of ten per element type, a block of five per
    attribute type, the page block, the user block, and fifteen entries
    that are never written. *)
Definition state_layout (n : nat) (ps : PageState) : list Q :=
  let els := elements ps in
  let self := UIStateRepresentation_init n in
  flat_map
    (λ t, replicate 10 (Qnat (type_count t els) / Qnat (length els))%Q)
    (element_types self) ++
  flat_map
    (λ a, replicate 5 (Qnat (attr_count a els) / Qnat (length els))%Q)
    (attribute_types self) ++
  page_block n ps ++ user_block ps ++ zeros 15.

(** [sum(xs)] *)
Definition Qsum (xs : list Q) : Q := foldr Qplus 0%Q xs.

End layout.

(** ** Further concrete inputs *)
Module more_fixtures.
Import Py ui_state_representation reward_system marl_agents train_marl.
Import fixtures.

(** One recorded step on the home page. *)
Definition sample_experience : experience :=
  mkExperience [] (Action1 "wait") 0.0 [] false.

(** An agent whose memory holds a full batch. *)
Definition seasoned_explorer : @ExplorationAgent bias_networks :=
  @with_memory bias_networks fresh_explorer (replicate 32 sample_experience).

End more_fixtures.

(** ** Notions about scenarios *)
Module scenario_notions.
Import Py ui_state_representation reward_system marl_agents train_marl.

(** A step whose [value], if it has one, is a string. *)
Definition string_valued (step : gmap string pyval) : Prop :=
  match step !! "value" with
  | Some (PyStr _) | None => True
  | Some _ => False
  end.

End scenario_notions.

(** * Properties *)
Import Py ui_state_representation reward_system marl_agents train_marl.
Import notions fixtures.

(** ** Generic facts about the Python fragment *)

#[local] Set Warnings "-clear-no-such-hyp".
#[local] Arguments set_slice : simpl never.
#[local] Arguments truediv : simpl never.

Lemma bind_ok {A B} (m : result A) (k : A → result B) (b : B) :
  m ≫= k = Ok b → ∃ a, m = Ok a ∧ k a = Ok b.
Proof. destruct m as [a|e]; simpl; [eauto | discriminate]. Qed.

Lemma for_each_invariant {A S} (P : S → Prop) (body : S → A → result S)
    (xs : list A) (s s' : S) :
  (∀ s x s', P s → body s x = Ok s' → P s') →
  P s → for_each xs body s = Ok s' → P s'.
Proof.
  intros Hbody. revert s. induction xs as [|x xs IH]; simpl; intros s Hs Hrun.
  - by inversion Hrun; subst.
  - apply bind_ok in Hrun as (s1 & Hstep & Hrest). eauto.
Qed.

Lemma set_slice_length (v : list Q) (lo hi : nat) (xs v' : list Q) :
  set_slice v lo hi xs = Ok v' → length v' = length v.
Proof.
  unfold set_slice. intros Hset.
  assert (Hgen : ∀ ys, length ys = (hi `min` length v - lo `min` (hi `min` length v))%nat →
    length (take (lo `min` (hi `min` length v)) v ++ ys ++ drop (hi `min` length v) v) = length v).
  { intros ys Hys. rewrite !length_app, length_take, length_drop, Hys. lia. }
  destruct xs as [|x [|y xs]].
  - case_decide; [|discriminate]. injection Hset as <-. by apply (Hgen []).
  - injection Hset as <-. apply Hgen. by rewrite length_replicate.
  - case_decide; [|discriminate]. injection Hset as <-.
    by apply (Hgen (x :: y :: xs)).
Qed.

(** The vector [state_to_vector] returns, when it returns one, has the
    configured length 11 * 10 + 7 * 5 + 20 + 10 = 175. *)
Lemma state_to_vector_length (n : nat) (ps : PageState) (v : list Q) :
  state_to_vector (UIStateRepresentation_init n) ps = Ok v → length v = 175%nat.
Proof.
  unfold state_to_vector. intros Hrun.
  apply bind_ok in Hrun as ([v1 i1] & H1 & Hrun).
  apply bind_ok in Hrun as ([v2 i2] & H2 & Hrun).
  assert (L1 : length v1 = 175%nat).
  { eapply (for_each_invariant (λ s, length s.1 = 175%nat)) in H1; [exact H1| |done].
    intros [w i] x [w' i'] Hw Hstep. simpl in *.
    apply bind_ok in Hstep as (r & _ & Hstep).
    apply bind_ok in Hstep as (w1 & Hset & Hret).
    inversion Hret; subst. apply set_slice_length in Hset. congruence. }
  assert (L2 : length v2 = 175%nat).
  { eapply (for_each_invariant (λ s, length s.1 = 175%nat)) in H2; [exact H2| |done].
    intros [w i] x [w' i'] Hw Hstep. simpl in *.
    apply bind_ok in Hstep as (r & _ & Hstep).
    apply bind_ok in Hstep as (w1 & Hset & Hret).
    inversion Hret; subst. apply set_slice_length in Hset. congruence. }
  repeat (apply bind_ok in Hrun as (? & ? & Hrun)).
  inversion Hrun; subst.
  repeat match goal with
  | Hs : set_slice _ _ _ _ = Ok _ |- _ => apply set_slice_length in Hs
  end.
  congruence.
Qed.

(** C1, as the code has it: on a page without elements the first division
    of the element-type loop, [element_counts[elem_type] / len(elements)],
    divides by zero, and [state_to_vector] raises instead of returning a
    vector of zeros. *)
Theorem state_to_vector_empty_page_raises (n : nat) (url title : string)
    (ctx : gmap string pyval) (page_type : string) (ts : Q) :
  state_to_vector (UIStateRepresentation_init n) (mkPageState url title [] ctx page_type ts)
  = Raise ZeroDivisionError.
Proof. reflexivity. Qed.

(** ** The state vector on pages that have elements *)

Lemma for_each_ok {A S} (P : list A → S → Prop) (body : S → A → result S)
    (xs : list A) (s : S) :
  (∀ x xs s, P (x :: xs) s → ∃ s', body s x = Ok s' ∧ P xs s') →
  P xs s → ∃ s', for_each xs body s = Ok s' ∧ P [] s'.
Proof.
  intros Hbody. revert s. induction xs as [|x xs IH]; intros s Hs; simpl.
  - by exists s.
  - destruct (Hbody x xs s Hs) as (s1 & -> & Hs1). by apply IH.
Qed.

Lemma Qnat_eq_bool_0 (n : nat) : n ≠ 0%nat → Qeq_bool (Qnat n) 0 = false.
Proof.
  intros Hn. destruct (Qeq_bool (Qnat n) 0) eqn:Heq; [|done].
  apply Qeq_bool_iff in Heq. unfold Qnat, Qeq in Heq. simpl in Heq. lia.
Qed.

Lemma truediv_ok (a b : Q) :
  Qeq_bool b 0 = false → truediv a b = Ok (a / b)%Q.
Proof. unfold truediv. by intros ->. Qed.

Lemma set_slice_ok (v : list Q) (lo : nat) (xs : list Q) :
  (lo + length xs ≤ length v)%nat →
  ∃ v', set_slice v lo (lo + length xs) xs = Ok v' ∧ length v' = length v.
Proof.
  intros Hroom.
  assert (Hok : ∃ v', set_slice v lo (lo + length xs) xs = Ok v').
  { unfold set_slice. destruct xs as [|x [|y xs]]; cbv iota.
    - rewrite decide_True by (simpl; lia). eexists; reflexivity.
    - eexists; reflexivity.
    - rewrite decide_True by (cbn [length] in *; lia). eexists; reflexivity. }
  destruct Hok as [v' Hv']. exists v'. split; [done|].
  by eapply set_slice_length.
Qed.

Lemma scaled_ok (ctx : gmap string pyval) (key : string) (d : Q) :
  numeric (ctx !! key) → Qeq_bool d 0 = false → ∃ q, scaled ctx key d = Ok q.
Proof.
  unfold scaled, val_truediv, truediv. intros Hnum ->.
  destruct (ctx !! key) as [[| | |]|]; simpl in *; by eauto.
Qed.

(** On a page with at least one element, for a nonzero [max_elements] and a
    user context whose five counters are numbers (or absent),
    [state_to_vector] returns a vector of the configured length 175. *)
Lemma state_to_vector_returns (n : nat) (ps : PageState) :
  elements ps ≠ [] → n ≠ 0%nat →
  (∀ key,
     key ∈ ["user_id"; "session_duration"; "page_views"; "failed_logins";
            "successful_actions"] →
     numeric (user_context ps !! key)) →
  ∃ v, state_to_vector (UIStateRepresentation_init n) ps = Ok v ∧
       length v = 175%nat.
Proof.
  intros Hels Hn Hctx.
  assert (Hlen : Qeq_bool (Qnat (length (elements ps))) 0 = false).
  { apply Qnat_eq_bool_0. by destruct (elements ps). }
  assert (Hret : ∃ v, state_to_vector (UIStateRepresentation_init n) ps = Ok v);
    [|destruct Hret as [v Hv]; exists v; split;
      [done | by eapply state_to_vector_length]].
  unfold state_to_vector.
  edestruct (for_each_ok
    (λ (xs : list string) (s : list Q * nat),
       length s.1 = 175%nat ∧ (s.2 + 10 * length xs = 110)%nat))
    as ([v1 i1] & -> & [L1 I1]); [| |].
  { intros x xs [w i] [Hw Hi]. cbn [fst snd length] in *.
    rewrite (truediv_ok _ _ Hlen). cbn [mbind result_bind].
    match goal with
    | |- context [set_slice w i (i + 10) ?row] =>
        destruct (set_slice_ok w i row) as (w' & Hset & Hw');
          [rewrite length_replicate; lia|]
    end.
    rewrite length_replicate in Hset. rewrite Hset. cbn [mbind result_bind].
    eexists. split; [reflexivity|]. cbn [fst snd]. split; lia. }
  { split; [reflexivity|]. reflexivity. }
  cbn [mbind result_bind fst snd length] in *.
  edestruct (for_each_ok
    (λ (xs : list string) (s : list Q * nat),
       length s.1 = 175%nat ∧ (s.2 + 5 * length xs = 145)%nat))
    as ([v2 i2] & -> & [L2 I2]); [| |].
  { intros x xs [w i] [Hw Hi]. cbn [fst snd length] in *.
    rewrite (truediv_ok _ _ Hlen). cbn [mbind result_bind].
    match goal with
    | |- context [set_slice w i (i + 5) ?row] =>
        destruct (set_slice_ok w i row) as (w' & Hset & Hw');
          [rewrite length_replicate; lia|]
    end.
    rewrite length_replicate in Hset. rewrite Hset. cbn [mbind result_bind].
    eexists. split; [reflexivity|]. cbn [fst snd]. split; lia. }
  { cbn [fst snd length UIStateRepresentation_init attribute_types].
    split; [done | lia]. }
  cbn [mbind result_bind fst snd length] in *.
  cbn [UIStateRepresentation_init max_elements].
  rewrite (truediv_ok _ _ (Qnat_eq_bool_0 n Hn)). cbn [mbind result_bind].
  rewrite (truediv_ok _ 100.0 eq_refl). cbn [mbind result_bind].
  match goal with
  | |- context [set_slice v2 i2 (i2 + 10) ?xs] =>
      destruct (set_slice_ok v2 i2 xs) as (v3 & Hset3 & L3);
        [cbn [length]; lia | cbn [length] in Hset3; rewrite Hset3]
  end.
  cbn [mbind result_bind].
  destruct (scaled_ok (user_context ps) "user_id" 1000.0) as [u0 ->];
    [apply Hctx; set_solver | done |].
  destruct (scaled_ok (user_context ps) "session_duration" 3600.0) as [u1 ->];
    [apply Hctx; set_solver | done |].
  destruct (scaled_ok (user_context ps) "page_views" 100.0) as [u2 ->];
    [apply Hctx; set_solver | done |].
  destruct (scaled_ok (user_context ps) "failed_logins" 10.0) as [u3 ->];
    [apply Hctx; set_solver | done |].
  destruct (scaled_ok (user_context ps) "successful_actions" 50.0) as [u4 ->];
    [apply Hctx; set_solver | done |].
  cbn [mbind result_bind].
  destruct (set_slice_ok v3 (i2 + 10) [u0; u1; u2; u3; u4])
    as (v4 & Hset4 & L4); [cbn [length]; lia|].
  cbn [length] in Hset4. rewrite Hset4. cbn [mbind result_bind].
  by eexists.
Qed.

(** The page of the fixtures is such a page. *)
Example state_to_vector_home_page :
  length <$> state_to_vector default_representation home_page
  = Ok 175%nat.
Proof. vm_compute. reflexivity. Qed.

(** ** The reward calculator *)

(** No method reassigns the two dictionaries of constants. *)
Lemma after_weights `{Hashlib} (self : RewardCalculator) (c : method_call) :
  weights (after self c) = weights self ∧
  baseline_metrics (after self c) = baseline_metrics self.
Proof.
  destruct c; simpl; try done.
  unfold calculate_exploration_reward.
  repeat match goal with
  | |- context [let '(_, _) := ?e in _] => destruct e
  end; done.
Qed.

Lemma after_all_weights `{Hashlib} (calls : list method_call)
    (self : RewardCalculator) :
  weights (after_all self calls) = weights self ∧
  baseline_metrics (after_all self calls) = baseline_metrics self.
Proof.
  unfold after_all. revert self.
  induction calls as [|c calls IH]; intros self; simpl; [done|].
  destruct (IH (after self c)) as [-> ->]. apply after_weights.
Qed.

(** C5: whatever calls the calculator has served since it was built, the
    total reward is exploration * 0.30 + coverage * 0.25 + quality * 0.20 +
    bug_discovery * 0.15 + efficiency * 0.10 and nothing else; the weights
    dictionary holds these five weights only, and they add up to 1. *)
Theorem calculate_total_reward_weighted_sum `{Hashlib}
    (calls : list method_call) (e c q b f : Q) :
  let self := after_all RewardCalculator_init calls in
  (calculate_total_reward self e c q b f
   == e * 0.30 + c * 0.25 + q * 0.20 + b * 0.15 + f * 0.10)%Q ∧
  dom (weights self) =
    {["exploration"; "coverage"; "quality"; "bug_discovery"; "efficiency"]} ∧
  ((weights self !!! "exploration") + (weights self !!! "coverage") +
   (weights self !!! "quality") + (weights self !!! "bug_discovery") +
   (weights self !!! "efficiency") == 1.0)%Q.
Proof.
  intros self. unfold calculate_total_reward.
  destruct (after_all_weights calls RewardCalculator_init) as [Hw _].
  fold self in Hw. rewrite Hw.
  assert (He : weights RewardCalculator_init !!! "exploration" = 0.3%Q)
    by (vm_compute; reflexivity).
  assert (Hc : weights RewardCalculator_init !!! "coverage" = 0.25%Q)
    by (vm_compute; reflexivity).
  assert (Hq : weights RewardCalculator_init !!! "quality" = 0.2%Q)
    by (vm_compute; reflexivity).
  assert (Hb : weights RewardCalculator_init !!! "bug_discovery" = 0.15%Q)
    by (vm_compute; reflexivity).
  assert (Hf : weights RewardCalculator_init !!! "efficiency" = 0.1%Q)
    by (vm_compute; reflexivity).
  rewrite He, Hc, Hq, Hb, Hf.
  split; [|split].
  - lra.
  - unfold RewardCalculator_init; cbn [weights]. set_solver.
  - lra.
Qed.

(** ** The test-generation agent *)

(** A freshly built agent maps every pattern index that is a multiple of ten
    to the pattern [login_flow]. *)
Lemma create_login_flow `{Torch} (a c : module) (oa oc : optimizer) (k : Z)
    (data : ExplorationData) :
  ∃ sc,
    _create_test_scenario (TestGenerationAgent_init 200 20 0.001 a c oa oc)
      (10 * k) data = Ok sc ∧
    pattern sc = "login_flow".
Proof.
  unfold _create_test_scenario.
  cbn [TestGenerationAgent_init test_patterns generated_tests length Nat.eqb].
  change (Z.of_nat 10) with 10%Z.
  rewrite (Z.mul_comm 10 k), Z_mod_mult.
  eexists. split; reflexivity.
Qed.

(** C9: a scenario created for the pattern [login_flow] has the step actions
    navigate, type, type, click, in this order, and an assertion of type
    [url_contains]. *)
Theorem login_flow_scenario_shape `{Torch} (self : TestGenerationAgent)
    (action : Z) (data : ExplorationData) (sc : TestScenario) :
  _create_test_scenario self action data = Ok sc →
  pattern sc = "login_flow" →
  (λ step : gmap string pyval, step !! "action") <$> steps sc =
    [Some (PyStr "navigate"); Some (PyStr "type"); Some (PyStr "type");
     Some (PyStr "click")] ∧
  ∃ a : gmap string pyval,
    a ∈ assertions sc ∧ a !! "type" = Some (PyStr "url_contains").
Proof.
  unfold _create_test_scenario. intros Hrun Hpat.
  destruct (length (test_patterns self) =? 0)%nat; [discriminate|].
  apply bind_ok in Hrun as (p & _ & Hrun).
  destruct (String.eqb p "login_flow") eqn:Hlogin.
  - injection Hrun as <-. split; [reflexivity|].
    eexists. split; [apply list_elem_of_here | reflexivity].
  - apply String.eqb_neq in Hlogin.
    repeat match type of Hrun with
    | (if ?c then _ else _) = _ => destruct c
    end; injection Hrun as <-; simpl in Hpat; congruence.
Qed.

(** The statement of C9 on a freshly built agent and pattern index 0. *)
Lemma login_flow_scenario_shape_witness :
  ∃ sc,
    @_create_test_scenario bias_networks fresh_generator 0 no_data = Ok sc ∧
    pattern sc = "login_flow" ∧
    (λ step : gmap string pyval, step !! "action") <$> steps sc =
      [Some (PyStr "navigate"); Some (PyStr "type"); Some (PyStr "type");
       Some (PyStr "click")] ∧
    ∃ a : gmap string pyval,
      a ∈ assertions sc ∧ a !! "type" = Some (PyStr "url_contains").
Proof.
  eexists. split; [reflexivity|]. split; [reflexivity|].
  eapply (@login_flow_scenario_shape bias_networks fresh_generator 0 no_data);
    reflexivity.
Defined.

(** ** The exploration agent *)

Lemma get_available_actions_split (page_state : PageState) :
  get_available_actions page_state =
  foldl (λ actions element, actions ++ element_actions element) []
    (elements page_state) ++ navigation_actions.
Proof. reflexivity. Qed.

Lemma get_available_actions_nonempty (page_state : PageState) :
  get_available_actions page_state ≠ [].
Proof.
  rewrite get_available_actions_split. intros Hnil.
  apply app_eq_nil in Hnil as [_ Hnil]. discriminate.
Qed.

Section loops.
Context `{Torch} `{WebDriver} `{Hashlib}.

(** The orchestrator's loop is never left through its empty-actions
    [break]. *)
Lemma exploration_phase_exit (self : MARLSystem) (rnd : nat → entropy)
    (steps : list nat) (st st' : exploration) (exit : loop_exit) :
  exploration_phase self rnd steps st = Ok (exit, st') →
  exit ≠ NoActionsAvailable.
Proof.
  revert st. induction steps as [|step steps IH]; intros st Hrun.
  - injection Hrun as <- _. discriminate.
  - cbn [exploration_phase] in Hrun.
    destruct (get_available_actions _) as [|a0 rest] eqn:Havail.
    { by apply get_available_actions_nonempty in Havail. }
    apply bind_ok in Hrun as (action & _ & Hrun).
    destruct (_execute_action _ action) as [d reward].
    apply bind_ok in Hrun as (next_state & _ & Hrun).
    destruct (_is_episode_done d step).
    + injection Hrun as <- _. discriminate.
    + by eapply IH.
Qed.

(** Neither is the trainer's. *)
Lemma trainer_phase_exit (system : MARLSystem) (rnd : nat → entropy)
    (steps : list nat) (st st' : trainer_loop) (exit : loop_exit) :
  trainer_phase system rnd steps st = Ok (exit, st') →
  exit ≠ NoActionsAvailable.
Proof.
  revert st. induction steps as [|step steps IH]; intros st Hrun.
  - injection Hrun as <- _. discriminate.
  - cbn [trainer_phase] in Hrun.
    destruct (get_available_actions _) as [|a0 rest] eqn:Havail.
    { by apply get_available_actions_nonempty in Havail. }
    apply bind_ok in Hrun as (action & _ & Hrun).
    destruct (_execute_action_safely _ action) as [d success].
    destruct (calculate_exploration_reward _ _ _ _) as [reward calculator].
    apply bind_ok in Hrun as (next_state & _ & Hrun).
    destruct (perform d (Sleep 0.2)) as [d' ok].
    by eapply IH.
Qed.

End loops.

(** C10: for every page state the available actions end with the five
    navigation actions scroll_up, scroll_down, wait, navigate_back, refresh;
    the list is therefore never empty, and neither episode loop can ever
    return through its break-on-empty-actions branch. *)
Theorem get_available_actions_has_navigation `{Torch} `{WebDriver} `{Hashlib}
    (page_state : PageState) :
  (∃ element_part,
     get_available_actions page_state =
     element_part ++
       [ Action1 "scroll_up"; Action1 "scroll_down"; Action1 "wait";
         Action1 "navigate_back"; Action1 "refresh" ]) ∧
  get_available_actions page_state ≠ [] ∧
  (∀ self rnd steps st st',
     exploration_phase self rnd steps st ≠ Ok (NoActionsAvailable, st')) ∧
  (∀ system rnd steps st st',
     trainer_phase system rnd steps st ≠ Ok (NoActionsAvailable, st')).
Proof.
  split; [|split; [|split]].
  - eexists. apply get_available_actions_split.
  - apply get_available_actions_nonempty.
  - intros self rnd steps st st' Hrun.
    by apply exploration_phase_exit in Hrun.
  - intros system rnd steps st st' Hrun.
    by apply trainer_phase_exit in Hrun.
Qed.

(** [__init__] configures a batch size of 32, and [remember] keeps it. *)
Lemma batch_size_init `{Torch} (n m : nat) (lr : Q) (q t : module)
    (opt : optimizer) :
  batch_size (ExplorationAgent_init n m lr q t opt) = 32%nat.
Proof. reflexivity. Qed.

(** C8: while the replay memory holds fewer experiences than the batch size,
    [replay] returns normally and leaves the whole agent as it was: both
    networks, the optimizer, epsilon and the memory. *)
Theorem replay_below_batch_size_is_noop `{Torch} (self : ExplorationAgent)
    (rnd : replay_entropy) :
  (length (memory self) < batch_size self)%nat →
  replay self rnd = Ok self.
Proof.
  intros Hfew. unfold replay.
  by apply Nat.ltb_lt in Hfew as ->.
Qed.

(** The statement of C8 on a freshly built agent, whose memory is empty. *)
Lemma replay_below_batch_size_is_noop_witness :
  (length (memory fresh_explorer) < batch_size fresh_explorer)%nat ∧
  batch_size fresh_explorer = 32%nat ∧
  @replay bias_networks fresh_explorer no_replay_draw = Ok fresh_explorer.
Proof.
  assert (Hfew : (length (memory fresh_explorer)
                  < batch_size fresh_explorer)%nat) by (simpl; lia).
  split; [exact Hfew|]. split; [reflexivity|].
  exact (@replay_below_batch_size_is_noop bias_networks fresh_explorer
           no_replay_draw Hfew).
Defined.

(** ** Exploration rewards *)

Section exploration_reward.
Context `{Hashlib}.

Lemma element_loop_grows (els : list UIElement) (st : element_loop) :
  discovered st ⊆ discovered (foldl element_loop_body st els) ∧
  ∀ e, e ∈ els →
    _hash_element e ∈ discovered (foldl element_loop_body st els).
Proof.
  revert st. induction els as [|e els IH]; intros st; simpl.
  - split; [done|]. intros e He. by apply elem_of_nil in He.
  - destruct (IH (element_loop_body st e)) as [Hsub Hall].
    assert (Hstep : discovered st ⊆ discovered (element_loop_body st e) ∧
                    _hash_element e ∈ discovered (element_loop_body st e)).
    { unfold element_loop_body.
      destruct (decide (_hash_element e ∉ discovered st)) as [Hnew|Hold];
        simpl; [set_solver|].
      split; [done|]. by apply dec_stable in Hold. }
    destruct Hstep as [Hsub1 He1].
    split; [set_solver|].
    intros e' [->|He']%elem_of_cons; [set_solver|by apply Hall].
Qed.

Lemma element_loop_known (els : list UIElement) (st : element_loop) :
  (∀ e, e ∈ els → _hash_element e ∈ discovered st) →
  discovered (foldl element_loop_body st els) = discovered st ∧
  new_elements (foldl element_loop_body st els) = new_elements st.
Proof.
  revert st. induction els as [|e els IH]; intros st Hknown; simpl; [done|].
  assert (He : _hash_element e ∈ discovered st)
    by (apply Hknown; apply list_elem_of_here).
  assert (Hstep : discovered (element_loop_body st e) = discovered st ∧
                  new_elements (element_loop_body st e) = new_elements st).
  { unfold element_loop_body.
    destruct (decide (_hash_element e ∉ discovered st)); [done|]. done. }
  destruct Hstep as [Hd Hn].
  destruct (IH (element_loop_body st e)) as [-> ->]; [|done].
  intros e' He'. rewrite Hd. apply Hknown. by apply list_elem_of_further.
Qed.

(** What a call leaves in the three sets. *)
Lemma calculate_exploration_reward_sets (self : RewardCalculator)
    (page_state : PageState) (action : string) (success : bool) :
  let cm := coverage_metrics self in
  let cm' :=
    coverage_metrics
      (calculate_exploration_reward self page_state action success).2 in
  pages_visited cm' = {[_hash_page page_state]} ∪ pages_visited cm ∧
  elements_discovered cm' =
    discovered
      (foldl element_loop_body
         (mkElementLoop (elements_discovered cm) 0 None)
         (elements page_state)) ∧
  interactions_performed cm' =
    (if in_list action ["click"; "type"; "select"] && success
     then {[interaction_key_of page_state action]} ∪ interactions_performed cm
     else interactions_performed cm) ∧
  page_coverage cm' = page_coverage cm ∧
  element_coverage cm' = element_coverage cm ∧
  interaction_coverage cm' = interaction_coverage cm.
Proof.
  unfold calculate_exploration_reward, interaction_key_of.
  change (hasattr_locals "element_hash") with false. cbv iota.
  destruct (decide (_hash_page page_state ∉ pages_visited _)) as [?|Hp];
    [|apply dec_stable in Hp];
  destruct (in_list action ["click"; "type"; "select"] && success);
    try destruct (decide (_ ∉ interactions_performed _)) as [?|Hi];
    try apply dec_stable in Hi;
    cbn; repeat split; try done; set_solver.
Qed.

(** A call that finds the page, its elements and the interaction already
    recorded returns the plain reward and leaves the calculator as it is. *)
Lemma calculate_exploration_reward_saturated (self : RewardCalculator)
    (page_state : PageState) (action : string) (success : bool) :
  _hash_page page_state ∈ pages_visited (coverage_metrics self) →
  (∀ e, e ∈ elements page_state →
        _hash_element e ∈ elements_discovered (coverage_metrics self)) →
  (in_list action ["click"; "type"; "select"] && success = true →
   interaction_key_of page_state action
     ∈ interactions_performed (coverage_metrics self)) →
  calculate_exploration_reward self page_state action success
  = (plain_reward action success, self).
Proof.
  intros Hpage Hels Hint.
  unfold calculate_exploration_reward, plain_reward.
  change (hasattr_locals "element_hash") with false. cbv iota.
  destruct (decide (_hash_page page_state ∉ pages_visited _)); [done|].
  destruct (element_loop_known (elements page_state)
              (mkElementLoop (elements_discovered (coverage_metrics self))
                 0 None) Hels) as [Hd Hn].
  rewrite Hd, Hn. cbn [discovered new_elements Nat.ltb Nat.leb].
  fold (interaction_key_of page_state action).
  destruct (in_list action ["click"; "type"; "select"] && success).
  - destruct (decide (interaction_key_of page_state action
                      ∉ interactions_performed (coverage_metrics self)))
      as [Hnew|_]; [by specialize (Hint eq_refl)|].
    by destruct self as [[pv ed ip up pc ec ic] qm w bm].
  - by destruct self as [[pv ed ip up pc ec ic] qm w bm].
Qed.

(** Repeating a call: the second one meets a saturated calculator. *)
Lemma calculate_exploration_reward_repeat (self : RewardCalculator)
    (page_state : PageState) (action : string) (success : bool) :
  let s1 := (calculate_exploration_reward self page_state action success).2 in
  calculate_exploration_reward s1 page_state action success
  = (plain_reward action success, s1).
Proof.
  intros s1.
  destruct (calculate_exploration_reward_sets self page_state action success)
    as (Hp & He & Hi & _).
  fold s1 in Hp, He, Hi.
  apply calculate_exploration_reward_saturated.
  - rewrite Hp. set_solver.
  - rewrite He. apply element_loop_grows.
  - intros Hcond. rewrite Hi, Hcond. set_solver.
Qed.

End exploration_reward.

Lemma Qnat_nonneg (n : nat) : (0 <= Qnat n)%Q.
Proof.
  unfold Qnat. change 0%Q with (inject_Z 0).
  rewrite <- Zle_Qle. lia.
Qed.

(** C3, as the code has it: the interaction is filed under the page, the
    action type and the literal [unknown], whatever element was the target;
    a second successful click on the same page (on any other element) finds
    the key present and earns the base reward 1.0 only, without the +1.0
    interaction bonus. *)
Theorem interaction_bonus_ignores_target `{Hashlib} (self : RewardCalculator)
    (page_state : PageState) :
  let first := calculate_exploration_reward self page_state "click" true in
  let again :=
    calculate_exploration_reward first.2 page_state "click" true in
  interactions_performed (coverage_metrics first.2) =
    {[_hash_page page_state +:+ "_click_unknown"]} ∪
    interactions_performed (coverage_metrics self) ∧
  again.1 = (0.0 + 1.0)%Q.
Proof.
  intros first again. split.
  - destruct (calculate_exploration_reward_sets self page_state "click" true)
      as (_ & _ & Hi & _).
    exact Hi.
  - unfold again, first.
    by rewrite calculate_exploration_reward_repeat.
Qed.

(** C7: when the page's fingerprint has not been seen, the call returns at
    least 2.0 more than the same call repeated right after it. *)
Theorem first_page_visit_earns_two_more `{Hashlib} (self : RewardCalculator)
    (page_state : PageState) (action : string) (success : bool) :
  _hash_page page_state ∉ pages_visited (coverage_metrics self) →
  let first := calculate_exploration_reward self page_state action success in
  let again :=
    calculate_exploration_reward first.2 page_state action success in
  (again.1 + 2.0 <= first.1)%Q.
Proof.
  intros Hnew first again.
  unfold again, first. rewrite calculate_exploration_reward_repeat.
  cbn [fst]. unfold calculate_exploration_reward, plain_reward.
  destruct (decide (_hash_page page_state ∉ pages_visited _)); [|done].
  pose proof (Qnat_nonneg
    (new_elements
       (foldl element_loop_body
          (mkElementLoop (elements_discovered (coverage_metrics self)) 0 None)
          (elements page_state)))) as Hn.
  repeat match goal with
  | |- context [if ?c then _ else _] => destruct c
  end; cbn [fst]; lra.
Qed.

(** The statement of C7 on a fresh calculator and a first click on the
    home page. *)
Lemma first_page_visit_earns_two_more_witness :
  (@_hash_page plain_digest home_page
     ∉ pages_visited (coverage_metrics RewardCalculator_init)) ∧
  (let first :=
     @calculate_exploration_reward plain_digest RewardCalculator_init
       home_page "click" true in
   let again :=
     @calculate_exploration_reward plain_digest first.2 home_page
       "click" true in
   (again.1 + 2.0 <= first.1)%Q).
Proof.
  assert (Hnew : @_hash_page plain_digest home_page
                 ∉ pages_visited (coverage_metrics RewardCalculator_init))
    by apply not_elem_of_empty.
  split; [exact Hnew|].
  exact (@first_page_visit_earns_two_more plain_digest RewardCalculator_init
           home_page "click" true Hnew).
Defined.

(** ** Coverage ratios *)

Section coverage.
Context `{Hashlib}.

Lemma coverage_le_refl (a : RewardCalculator) : coverage_le a a.
Proof. unfold coverage_le. repeat split; (done || apply Qle_refl). Qed.

Lemma coverage_le_trans (a b c : RewardCalculator) :
  coverage_le a b → coverage_le b c → coverage_le a c.
Proof.
  unfold coverage_le.
  intros (?&?&?&?&?&?) (?&?&?&?&?&?).
  repeat split; try (etrans; eassumption); eapply Qle_trans; eassumption.
Qed.

Lemma Qnat_div_mono (n m : nat) (d : Z) :
  (n ≤ m)%nat → (0 < d)%Z →
  (Qnat n / inject_Z d <= Qnat m / inject_Z d)%Q.
Proof.
  intros Hnm Hd. unfold Qdiv.
  apply Qmult_le_compat_r.
  - unfold Qnat. rewrite <- Zle_Qle. lia.
  - apply Qlt_le_weak, Qinv_lt_0_compat.
    change 0%Q with (inject_Z 0). by rewrite <- Zlt_Qlt.
Qed.

Lemma ratio_mono (self : RewardCalculator) (X Y : gset string)
    (key : string) :
  constants_intact self → X ⊆ Y →
  key ∈ ["total_pages"; "total_elements"; "total_interactions"] →
  (ratio self X key <= ratio self Y key)%Q.
Proof.
  unfold constants_intact, ratio. intros -> Hsub Hkey.
  apply subseteq_size in Hsub.
  repeat (apply elem_of_cons in Hkey as [->|Hkey]);
    [..|by apply elem_of_nil in Hkey];
    apply Qnat_div_mono; (done || by vm_compute).
Qed.

Lemma ratios_bounded_init : ratios_bounded RewardCalculator_init.
Proof. unfold ratios_bounded. by vm_compute. Qed.

Lemma ratios_bounded_reset (self : RewardCalculator) :
  constants_intact self → ratios_bounded (reset_metrics self).
Proof.
  unfold constants_intact, ratios_bounded, ratio. cbn. intros ->.
  by vm_compute.
Qed.

(** One call other than [reset_metrics]: the sets and the stored ratios can
    only grow, and the stored ratios stay bounded by the sets. *)
Lemma after_call_grows (self : RewardCalculator) (c : method_call) :
  is_reset c = false → constants_intact self → ratios_bounded self →
  coverage_le self (after self c) ∧ ratios_bounded (after self c).
Proof.
  intros Hc Hconst (Hp & He & Hi).
  destruct c; try discriminate; cbn [after];
    try (split; [apply coverage_le_refl | by repeat split]).
  - (* calculate_exploration_reward *)
    pose proof (proj2 (after_weights self
      (CalculateExplorationReward page_state action success))) as Hb.
    cbn [after] in Hb.
    destruct (calculate_exploration_reward_sets self page_state action success)
      as (Sp & Se & Si & Rp & Re & Ri).
    set (s1 := (calculate_exploration_reward self page_state action success).2)
      in *.
    assert (Hsp : pages_visited (coverage_metrics self)
                  ⊆ pages_visited (coverage_metrics s1))
      by (rewrite Sp; set_solver).
    assert (Hse : elements_discovered (coverage_metrics self)
                  ⊆ elements_discovered (coverage_metrics s1)).
    { rewrite Se.
      apply (element_loop_grows (elements page_state)
               (mkElementLoop (elements_discovered (coverage_metrics self))
                  0 None)). }
    assert (Hsi : interactions_performed (coverage_metrics self)
                  ⊆ interactions_performed (coverage_metrics s1)).
    { rewrite Si. destruct (_ && _); set_solver. }
    split.
    + unfold coverage_le. rewrite Rp, Re, Ri.
      repeat split; (done || apply Qle_refl).
    + unfold ratios_bounded. rewrite Rp, Re, Ri.
      assert (Hr : ∀ X key, ratio s1 X key = ratio self X key)
        by (intros; unfold ratio; by rewrite Hb).
      rewrite !Hr.
      repeat split.
      * eapply Qle_trans; [exact Hp|]. apply ratio_mono; [done..|set_solver].
      * eapply Qle_trans; [exact He|]. apply ratio_mono; [done..|set_solver].
      * eapply Qle_trans; [exact Hi|]. apply ratio_mono; [done..|set_solver].
  - (* calculate_coverage_reward *)
    unfold calculate_coverage_reward, coverage_le, ratios_bounded.
    cbn. repeat split; (done || apply Qle_refl).
Qed.

Lemma after_call_intact (self : RewardCalculator) (c : method_call) :
  constants_intact self → constants_intact (after self c).
Proof.
  unfold constants_intact. intros <-. apply after_weights.
Qed.

Lemma after_call_bounded (self : RewardCalculator) (c : method_call) :
  constants_intact self → ratios_bounded self → ratios_bounded (after self c).
Proof.
  intros Hconst Hb. destruct (is_reset c) eqn:Hc.
  - destruct c; try discriminate. by apply ratios_bounded_reset.
  - by apply after_call_grows.
Qed.

(** Whatever was called since [__init__], the invariant holds. *)
Lemma reachable_invariant (calls : list method_call) :
  constants_intact (after_all RewardCalculator_init calls) ∧
  ratios_bounded (after_all RewardCalculator_init calls).
Proof.
  unfold after_all.
  induction calls as [|c calls IH] using rev_ind; simpl.
  - split; [done | apply ratios_bounded_init].
  - rewrite foldl_app. simpl. destruct IH as [Hc Hb].
    split; [by apply after_call_intact | by apply after_call_bounded].
Qed.

Lemma after_all_grows (calls : list method_call) (self : RewardCalculator) :
  forallb (λ c, negb (is_reset c)) calls = true →
  constants_intact self → ratios_bounded self →
  coverage_le self (after_all self calls).
Proof.
  unfold after_all. revert self.
  induction calls as [|c calls IH]; intros self Hcalls Hconst Hb; simpl.
  - apply coverage_le_refl.
  - simpl in Hcalls. apply andb_prop in Hcalls as [Hc Hcalls].
    apply negb_true_iff in Hc.
    destruct (after_call_grows self c Hc Hconst Hb) as [Hle Hb'].
    eapply coverage_le_trans; [exact Hle|].
    apply IH; [done | by apply after_call_intact | done].
Qed.

(** After [calculate_coverage_reward] each stored ratio is the size of its
    set over the baseline total. *)
Lemma calculate_coverage_reward_ratios (self : RewardCalculator) :
  let cm := coverage_metrics (calculate_coverage_reward self).2 in
  page_coverage cm = ratio self (pages_visited cm) "total_pages" ∧
  element_coverage cm =
    ratio self (elements_discovered cm) "total_elements" ∧
  interaction_coverage cm =
    ratio self (interactions_performed cm) "total_interactions".
Proof. done. Qed.

End coverage.

(** C6: between two points of one run, with no [reset_metrics] in between,
    the three fingerprint sets only grow and the three coverage ratios do
    not decrease, whatever methods are called; right after [reset_metrics]
    the three sets are empty and the three ratios are zero. *)
Theorem coverage_ratios_monotone `{Hashlib} (history run : list method_call) :
  forallb (λ c, negb (is_reset c)) run = true →
  let before := after_all RewardCalculator_init history in
  let later := after_all before run in
  let cleared := coverage_metrics (reset_metrics later) in
  ((page_coverage (coverage_metrics before)
    <= page_coverage (coverage_metrics later))%Q ∧
   (element_coverage (coverage_metrics before)
    <= element_coverage (coverage_metrics later))%Q ∧
   (interaction_coverage (coverage_metrics before)
    <= interaction_coverage (coverage_metrics later))%Q) ∧
  (pages_visited (coverage_metrics before)
     ⊆ pages_visited (coverage_metrics later) ∧
   elements_discovered (coverage_metrics before)
     ⊆ elements_discovered (coverage_metrics later) ∧
   interactions_performed (coverage_metrics before)
     ⊆ interactions_performed (coverage_metrics later)) ∧
  (pages_visited cleared = ∅ ∧
   elements_discovered cleared = ∅ ∧
   interactions_performed cleared = ∅ ∧
   (page_coverage cleared == 0)%Q ∧
   (element_coverage cleared == 0)%Q ∧
   (interaction_coverage cleared == 0)%Q).
Proof.
  intros Hrun before later cleared.
  destruct (reachable_invariant history) as [Hconst Hb].
  destruct (after_all_grows run before Hrun Hconst Hb)
    as (Sp & Se & Si & Rp & Re & Ri).
  split; [done|]. split; [done|].
  repeat split; reflexivity.
Qed.

(** The statement of C6, for the page ratio, on a run of two calls from a
    fresh calculator. *)
Lemma coverage_ratios_monotone_witness :
  let run :=
    [CalculateExplorationReward home_page "click" true;
     CalculateCoverageReward] in
  forallb (λ c, negb (is_reset c)) run = true ∧
  (page_coverage
     (coverage_metrics (@after_all plain_digest RewardCalculator_init []))
   <= page_coverage
        (coverage_metrics
           (@after_all plain_digest
              (@after_all plain_digest RewardCalculator_init []) run)))%Q.
Proof.
  intros run. split; [reflexivity|].
  exact (proj1 (proj1
    (@coverage_ratios_monotone plain_digest [] run eq_refl))).
Defined.

(** ** Action selection *)

Lemma Qlt_bool_true (a b : Q) : Qlt_bool a b = true ↔ (a < b)%Q.
Proof.
  unfold Qlt_bool. rewrite negb_true_iff.
  split.
  - intros Hle. apply Qnot_le_lt. intros Hba.
    apply Qle_bool_iff in Hba. congruence.
  - intros Hlt. destruct (Qle_bool b a) eqn:Hle; [|done].
    apply Qle_bool_iff in Hle. by apply Qlt_not_le in Hlt.
Qed.

Lemma Qlt_bool_false (a b : Q) : Qlt_bool a b = false ↔ (b <= a)%Q.
Proof.
  unfold Qlt_bool. rewrite negb_false_iff. apply Qle_bool_iff.
Qed.

Lemma argmax_from_first_maximum (xs pre : list Q) (best_idx : nat)
    (best : Q) :
  pre !! best_idx = Some best →
  (∀ j s, pre !! j = Some s → (s <= best)%Q) →
  (∀ j s, (j < best_idx)%nat → pre !! j = Some s → (s < best)%Q) →
  first_maximum (pre ++ xs) (argmax_from best_idx best (length pre) xs).
Proof.
  revert pre best_idx best.
  induction xs as [|x xs IH]; intros pre best_idx best Hbest Hall Hbefore.
  - rewrite app_nil_r. simpl. by exists best.
  - simpl.
    replace (pre ++ x :: xs) with ((pre ++ [x]) ++ xs)
      by (by rewrite <- app_assoc).
    replace (S (length pre)) with (length (pre ++ [x]))
      by (rewrite length_app; simpl; lia).
    destruct (Qlt_bool best x) eqn:Hcmp.
    + apply Qlt_bool_true in Hcmp.
      apply IH.
      * by rewrite lookup_app_r, Nat.sub_diag.
      * intros j s Hj.
        apply lookup_app_Some in Hj as [Hj|[_ Hj]].
        -- apply Qlt_le_weak. eapply Qle_lt_trans; [by eapply Hall|done].
        -- apply list_lookup_singleton_Some in Hj as [_ <-]. apply Qle_refl.
      * intros j s Hlt Hj.
        rewrite lookup_app_l in Hj by done.
        eapply Qle_lt_trans; [by eapply Hall|done].
    + apply Qlt_bool_false in Hcmp.
      apply IH.
      * rewrite lookup_app_l; [done|]. by eapply lookup_lt_Some.
      * intros j s Hj.
        apply lookup_app_Some in Hj as [Hj|[_ Hj]]; [by eapply Hall|].
        by apply list_lookup_singleton_Some in Hj as [_ <-].
      * intros j s Hlt Hj.
        apply lookup_lt_Some in Hbest.
        rewrite lookup_app_l in Hj by lia. by eapply Hbefore.
Qed.

Lemma argmax_first_maximum (scores : list Q) :
  scores ≠ [] → ∃ i, argmax scores = Ok i ∧ first_maximum scores i.
Proof.
  destruct scores as [|x xs]; [done|]. intros _.
  eexists. split; [reflexivity|].
  apply (argmax_from_first_maximum xs [x] 0 x).
  - done.
  - intros [|j] s Hj; simpl in Hj; [|by destruct j].
    injection Hj as <-. apply Qle_refl.
  - intros j s Hlt. lia.
Qed.

Lemma traverse_length {A B} (f : A → result B) (xs : list A) (ys : list B) :
  traverse f xs = Ok ys → length ys = length xs.
Proof.
  revert ys. induction xs as [|x xs IH]; intros ys Hrun; simpl in Hrun.
  - by injection Hrun as <-.
  - apply bind_ok in Hrun as (y & _ & Hrun).
    apply bind_ok in Hrun as (ys' & Hys & Hret).
    injection Hret as <-. simpl. f_equal. by apply IH.
Qed.

(** C4, amended: when the random draw exceeds epsilon (with epsilon forced
    to 0: any draw above 0), the forward pass returns Q-values and every
    available action has a score among them, [get_action] returns the
    available action at the first position whose score is maximal. *)
Theorem get_action_exploits_first_maximum `{Torch} (self : ExplorationAgent)
    (rnd : entropy) (state : list Q) (available_actions : list Action)
    (q_values scores : list Q) :
  (epsilon self < uniform rnd)%Q →
  available_actions ≠ [] →
  forward (q_network self) (dropout rnd) state = Ok q_values →
  traverse (action_score self q_values) available_actions = Ok scores →
  exploits self rnd state available_actions.
Proof.
  intros Hdraw Hsome Hforward Hscores.
  pose proof (traverse_length _ _ _ Hscores) as Hlen.
  destruct (argmax_first_maximum scores) as (i & Hargmax & Hfirst).
  { intros ->. by destruct available_actions. }
  assert (Hi : (i < length available_actions)%nat).
  { destruct Hfirst as (best & Hbest & _).
    apply lookup_lt_Some in Hbest. lia. }
  apply lookup_lt_is_Some in Hi as [action Haction].
  exists q_values, scores, i, action.
  repeat split; try done.
  unfold get_action.
  destruct (Qle_bool (uniform rnd) (epsilon self)) eqn:Hexplore.
  { apply Qle_bool_iff in Hexplore. by apply Qlt_not_le in Hdraw. }
  rewrite Hforward. cbn [mbind result_bind].
  rewrite Hscores. cbn [mbind result_bind].
  rewrite Hargmax. cbn [mbind result_bind].
  unfold getitem. by rewrite Haction.
Qed.

(** The statement of C4 (amended) with epsilon 0 and a draw of one half:
    [scroll_up], the higher score, is returned. *)
Lemma get_action_exploits_first_maximum_witness :
  (epsilon greedy_explorer < uniform half_draw)%Q ∧
  @get_action bias_networks greedy_explorer half_draw [] two_scrolls
    = Ok (Action1 "scroll_up") ∧
  @exploits bias_networks greedy_explorer half_draw [] two_scrolls.
Proof.
  assert (Hdraw : (epsilon greedy_explorer < uniform half_draw)%Q)
    by reflexivity.
  split; [exact Hdraw|]. split; [reflexivity|].
  apply (@get_action_exploits_first_maximum bias_networks greedy_explorer
           half_draw [] two_scrolls scroll_row [5; 1]%Q Hdraw);
    [discriminate | reflexivity | reflexivity].
Defined.

(** C4 as stated fails: with epsilon forced to 0, a draw of exactly 0.0
    (the lowest value of [np.random.random()]) still satisfies
    [random() <= epsilon], and [get_action] returns what [random.choice]
    picks, here [scroll_down] (score 1) although [scroll_up] scores 5. *)
Lemma get_action_zero_draw_explores :
  (epsilon greedy_explorer == 0)%Q ∧
  two_scrolls ≠ [] ∧
  @get_action bias_networks greedy_explorer zero_draw [] two_scrolls
    = Ok (Action1 "scroll_down") ∧
  @action_score bias_networks greedy_explorer scroll_row
    (Action1 "scroll_up") = Ok 5%Q ∧
  @action_score bias_networks greedy_explorer scroll_row
    (Action1 "scroll_down") = Ok 1%Q ∧
  ¬ @exploits bias_networks greedy_explorer zero_draw [] two_scrolls.
Proof.
  split; [reflexivity|]. split; [discriminate|].
  split; [reflexivity|]. split; [reflexivity|]. split; [reflexivity|].
  intros (q_values & scores & i & action & Hf & Hs & Hmax & Hi & Hget).
  injection Hf as <-. injection Hs as <-.
  assert (Haction : action = Action1 "scroll_down").
  { change (@Ok Action (Action1 "scroll_down") = Ok action) in Hget.
    by injection Hget as <-. }
  subst action.
  destruct i as [|[|i]]; [discriminate Hi | | discriminate Hi].
  destruct Hmax as (best & Hbest & Hall & _).
  injection Hbest as <-.
  specialize (Hall 0%nat 5%Q eq_refl).
  by apply Qle_not_lt in Hall.
Qed.

(** ** Episodes *)

Section episodes.
Context `{Torch} `{WebDriver} `{Hashlib}.

(** Inside [range(50)] the step test of [_is_episode_done] is never met:
    only the error marker in the URL ends an episode early. *)
Lemma _is_episode_done_below_cap (d : driver) (step : nat) :
  (step < 50)%nat →
  _is_episode_done d step = contains "error" (lower (current_url d)).
Proof.
  intros Hstep. unfold _is_episode_done.
  by apply Nat.leb_gt in Hstep as ->.
Qed.

Lemma remember_last (self : ExplorationAgent) (state : list Q)
    (action : Action) (reward : Q) (next_state : list Q) (done : bool) :
  (0 < memory_maxlen self)%nat →
  last (memory (remember self state action reward next_state done))
  = Some (mkExperience state action reward next_state done).
Proof.
  intros Hmax. unfold remember, with_memory, deque_append. cbn [memory].
  rewrite length_app. cbn [length].
  rewrite drop_app_le by lia. apply last_snoc.
Qed.

(** When the orchestrator's loop runs through all its steps, the experience
    recorded last carries [done = False]. *)
Lemma exploration_phase_range_exhausted (self : MARLSystem)
    (rnd : nat → entropy) (steps : list nat) (st st' : exploration) :
  exploration_phase self rnd steps st = Ok (RangeExhausted, st') →
  steps ≠ [] →
  (0 < memory_maxlen (ex_agent st))%nat →
  ∃ e, last (memory (ex_agent st')) = Some e ∧ exp_done e = false.
Proof.
  revert st. induction steps as [|step steps IH]; intros st Hrun Hsteps Hmax;
    [done|].
  cbn [exploration_phase] in Hrun.
  destruct (get_available_actions _) as [|a0 rest]; [discriminate|].
  apply bind_ok in Hrun as (action & _ & Hrun).
  destruct (_execute_action _ action) as [d reward].
  apply bind_ok in Hrun as (next_state & _ & Hrun).
  destruct (_is_episode_done d step); [discriminate|].
  destruct steps as [|step' steps].
  - injection Hrun as <-. cbn [ex_agent].
    eexists. split; [by apply remember_last | done].
  - by apply IH in Hrun.
Qed.

(** The trainer's loop records every experience with [done = False]. *)
Lemma trainer_phase_never_done (system : MARLSystem) (rnd : nat → entropy)
    (steps : list nat) (st st' : trainer_loop) (exit : loop_exit) :
  trainer_phase system rnd steps st = Ok (exit, st') →
  (length (memory (tl_agent st)) + length steps
   ≤ memory_maxlen (tl_agent st))%nat →
  ∃ recorded,
    memory (tl_agent st') = memory (tl_agent st) ++ recorded ∧
    Forall (λ e, exp_done e = false) recorded.
Proof.
  revert st. induction steps as [|step steps IH]; intros st Hrun Hroom.
  - injection Hrun as _ <-. exists []. by rewrite app_nil_r.
  - cbn [trainer_phase] in Hrun.
    destruct (get_available_actions _) as [|a0 rest].
    { injection Hrun as _ <-. exists []. by rewrite app_nil_r. }
    apply bind_ok in Hrun as (action & _ & Hrun).
    destruct (_execute_action_safely _ action) as [d success].
    destruct (calculate_exploration_reward _ _ _ _) as [reward calculator].
    apply bind_ok in Hrun as (next_state & _ & Hrun).
    destruct (perform d (Sleep 0.2)) as [d' ok].
    apply IH in Hrun as (recorded & Hmem & Hall); cbn [tl_agent] in *.
    + unfold remember, with_memory, deque_append in Hmem.
      cbn [memory] in Hmem.
      rewrite (proj2 (Nat.sub_0_le _ _)), drop_0 in Hmem
        by (rewrite length_app; cbn [length] in *; lia).
      eexists (_ :: recorded). split.
      * rewrite Hmem, <- app_assoc. reflexivity.
      * by constructor.
    + unfold remember, with_memory, deque_append.
      cbn [memory memory_maxlen].
      rewrite length_drop, length_app. cbn [length] in *. lia.
Qed.

End episodes.

(** C2, as the code has it: on a site whose URL never contains the error
    marker, an episode of the orchestrator runs its 50 steps and records 50
    experiences, every one of them (the last included) with [done = False]:
    the step test [step >= 50] of [_is_episode_done] cannot hold for a step
    of [range(50)]. *)
Theorem episode_cap_not_marked_terminal :
  (λ out, exp_done <$> memory (exploration_agent out.1.2)) <$>
    @train_episode bias_networks static_page fresh_system steady_entropy tt
  = Ok (replicate 50 false).
Proof. vm_compute. reflexivity. Qed.

(** * Further properties *)
Import cypress_integration layout more_fixtures scenario_notions.

(** ** Element extraction *)

Lemma collect_attributes_lookup (names : list string) (we : WebElement)
    (k v : string) :
  collect_attributes names we !! k = Some v →
  k ∈ names ∧ get_attribute we k = Some v ∧ v ≠ EmptyString.
Proof.
  unfold collect_attributes.
  assert (Hgen : ∀ acc : gmap string string,
    foldl
      (λ attributes attr,
         match get_attribute we attr with
         | Some value =>
             if negb (String.eqb value EmptyString)
             then <[attr := value]> attributes
             else attributes
         | None => attributes
         end) acc names !! k = Some v →
    acc !! k = Some v ∨
    (k ∈ names ∧ get_attribute we k = Some v ∧ v ≠ EmptyString)).
  { induction names as [|a names IH]; intros acc Hk; simpl in Hk; [by left|].
    apply IH in Hk as [Hk|(Hin & Hget & Hv)].
    - destruct (get_attribute we a) as [value|] eqn:Hget; [|by left].
      destruct (String.eqb value EmptyString) eqn:Hempty; simpl in Hk;
        [by left|].
      destruct (decide (a = k)) as [->|Hne].
      + rewrite lookup_insert_eq in Hk. injection Hk as ->.
        right. split; [apply list_elem_of_here|]. split; [done|].
        by apply String.eqb_neq.
      + rewrite lookup_insert_ne in Hk by done. by left.
    - right. split; [by apply list_elem_of_further | done]. }
  intros Hk. apply Hgen in Hk as [Hk|Hk]; [|done].
  by rewrite lookup_empty in Hk.
Qed.

Lemma init_collects_no_handler (n : nat) (we : WebElement) :
  collect_attributes (attribute_types (UIStateRepresentation_init n)) we
    !! "onclick" = None ∧
  collect_attributes (attribute_types (UIStateRepresentation_init n)) we
    !! "role" = None.
Proof.
  split.
  - destruct (collect_attributes _ we !! "onclick") as [v|] eqn:Hk; [|done].
    apply collect_attributes_lookup in Hk as [Hin _].
    apply list_elem_of_In in Hin. cbn in Hin. naive_solver.
  - destruct (collect_attributes _ we !! "role") as [v|] eqn:Hk; [|done].
    apply collect_attributes_lookup in Hk as [Hin _].
    apply list_elem_of_In in Hin. cbn in Hin. naive_solver.
Qed.

(** X1: the element built from a web element is classified as a button
    exactly when its tag is [button]; the [onclick] and [role] tests of
    [_determine_element_type] never fire, because [_create_ui_element] only
    collects the attributes named in [attribute_types]. *)
Theorem created_button_iff_button_tag (n : nat) (we : WebElement) :
  element_type (_create_ui_element (UIStateRepresentation_init n) we)
    = "button"
  ↔ lower (tag_name we) = "button".
Proof.
  cbn [_create_ui_element element_type]. unfold _determine_element_type.
  destruct (init_collects_no_handler n we) as [-> ->].
  rewrite bool_decide_eq_false_2 by done. cbn [orb].
  split.
  - repeat match goal with
    | |- context [String.eqb ?a ?b] =>
        destruct (String.eqb_spec a b); [try done|]
    end; try done.
    + destruct (in_list _ ["checkbox"; "radio"]) eqn:Hin; [|done].
      intros Hb. rewrite Hb in Hin. discriminate.
    + destruct (in_list (lower (tag_name we)) ["div"; "span"]) eqn:Hin;
        [|done].
      intros Hb. by rewrite Hb in Hin.
  - intros ->. reflexivity.
Qed.

Lemma in_list_elem (x : string) (xs : list string) :
  in_list x xs = true → x ∈ xs.
Proof.
  unfold in_list. intros Hin.
  apply existsb_exists in Hin as (y & Hy & Heq).
  apply String.eqb_eq in Heq as ->. by apply list_elem_of_In.
Qed.

Lemma in_list_weaken (x : string) (xs ys : list string) :
  forallb (λ y, in_list y ys) xs = true → in_list x xs = true → x ∈ ys.
Proof.
  intros Hsub Hin. apply in_list_elem in Hin.
  rewrite forallb_forall in Hsub.
  apply in_list_elem, Hsub. by apply list_elem_of_In.
Qed.

Lemma _determine_element_type_known (n : nat) (we : WebElement)
    (attributes : gmap string string) :
  _determine_element_type we attributes
    ∈ element_types (UIStateRepresentation_init n).
Proof.
  unfold _determine_element_type.
  cbn [UIStateRepresentation_init element_types].
  repeat match goal with
  | |- (if String.eqb ?a ?b then _ else _) ∈ _ => destruct (String.eqb a b)
  end; try (apply in_list_elem; reflexivity).
  - destruct (in_list _ ["checkbox"; "radio"]) eqn:Hin;
      [|apply in_list_elem; reflexivity].
    eapply in_list_weaken; [|exact Hin]; reflexivity.
  - destruct (in_list (lower (tag_name we)) ["div"; "span"]) eqn:Hin;
      [|apply in_list_elem; reflexivity].
    destruct (_ || _); [apply in_list_elem; reflexivity|].
    eapply in_list_weaken; [|exact Hin]; reflexivity.
Qed.

Lemma collect_loop (self : UIStateRepresentation) (found : list WebElement)
    (acc : list UIElement) :
  foldl
    (λ elements elem,
       if is_displayed elem
       then elements ++ [_create_ui_element self elem]
       else elements)
    acc found
  = acc ++ (_create_ui_element self <$>
            filter (λ e, is_displayed e = true) found).
Proof.
  revert acc. induction found as [|we found IH]; intros acc; simpl.
  - by rewrite app_nil_r.
  - rewrite IH. destruct (is_displayed we) eqn:Hd.
    + rewrite filter_cons_True by done.
      by rewrite fmap_cons, <- app_assoc.
    + rewrite filter_cons_False; [done|]. by rewrite Hd.
Qed.

(** What [extract_elements] returns: the displayed elements each selector
    finds, selector after selector, cut at [max_elements]. *)
Lemma extract_elements_from_eq (self : UIStateRepresentation)
    (find_elements : string → list WebElement) :
  extract_elements_from self find_elements =
  take (max_elements self)
    (mjoin ((λ selector,
               _create_ui_element self <$>
               filter (λ e, is_displayed e = true) (find_elements selector))
            <$> interactable_selectors)).
Proof.
  unfold extract_elements_from. f_equal.
  generalize interactable_selectors as selectors.
  assert (Hgen : ∀ selectors acc,
    foldl
      (λ elements selector,
         foldl
           (λ elements elem,
              if is_displayed elem
              then elements ++ [_create_ui_element self elem]
              else elements)
           elements (find_elements selector))
      acc selectors
    = acc ++ mjoin ((λ selector,
               _create_ui_element self <$>
               filter (λ e, is_displayed e = true) (find_elements selector))
            <$> selectors)).
  { induction selectors as [|sel selectors IH]; intros acc; simpl.
    - by rewrite app_nil_r.
    - by rewrite IH, collect_loop, <- app_assoc. }
  intros selectors. apply (Hgen selectors []).
Qed.

(** X2: [extract_elements] returns at most [max_elements] elements; each is
    visible, has one of the eleven element types, carries only attributes
    named in [attribute_types] with non-empty values, and is interactable
    only if it is enabled. *)
Theorem extract_elements_from_invariants (n : nat)
    (find_elements : string → list WebElement) :
  let self := UIStateRepresentation_init n in
  let found := extract_elements_from self find_elements in
  (length found ≤ n)%nat ∧
  Forall
    (λ e,
       is_visible e = true ∧
       element_type e ∈ element_types self ∧
       (∀ k v, attributes e !! k = Some v →
               k ∈ attribute_types self ∧ v ≠ EmptyString) ∧
       (is_interactable e = true → is_enabled e = true))
    found.
Proof.
  intros self found. unfold found. rewrite extract_elements_from_eq.
  split; [rewrite length_take; cbn; lia|].
  apply Forall_take, Forall_forall.
  intros e He. apply list_elem_of_join in He as (block & He & Hblock).
  apply list_elem_of_fmap in Hblock as (selector & -> & _).
  apply list_elem_of_fmap in He as (we & -> & Hwe).
  apply list_elem_of_filter in Hwe as [Hdisplayed _].
  split; [done|]. split; [apply _determine_element_type_known|].
  split.
  - intros k v Hk. cbn [_create_ui_element attributes] in Hk.
    by apply collect_attributes_lookup in Hk as (? & _ & ?).
  - cbn [_create_ui_element is_interactable is_enabled].
    unfold _is_interactable. intros Hi.
    by repeat (apply andb_prop in Hi as [Hi ?]).
Qed.

(** ** The layout of the state vector *)

Lemma set_slice_fill (pre xs : list Q) (m : nat) :
  (length xs ≤ m)%nat →
  set_slice (pre ++ zeros m) (length pre) (length pre + length xs) xs
  = Ok (pre ++ xs ++ zeros (m - length xs)).
Proof.
  intros Hroom. unfold set_slice, zeros.
  rewrite length_app, length_replicate.
  replace ((length pre + length xs) `min` (length pre + m))%nat
    with (length pre + length xs)%nat by lia.
  replace (length pre `min` (length pre + length xs))%nat
    with (length pre) by lia.
  rewrite take_app_length.
  rewrite drop_app_add, drop_replicate.
  replace (length pre + length xs - length pre)%nat with (length xs) by lia.
  destruct xs as [|x [|y xs]]; [|done|].
  - by rewrite decide_True by done.
  - by rewrite decide_True by done.
Qed.

Lemma set_slice_fill_at (pre xs : list Q) (m lo hi : nat) :
  lo = length pre → hi = (lo + length xs)%nat → (length xs ≤ m)%nat →
  set_slice (pre ++ zeros m) lo hi xs
  = Ok (pre ++ xs ++ zeros (m - length xs)).
Proof. intros -> ->. apply set_slice_fill. Qed.

Lemma fill_blocks (w : nat) (f : string → Q) (d : Q) (names : list string)
    (pre : list Q) (m : nat) :
  Qeq_bool d 0 = false → (length names * w ≤ m)%nat →
  for_each names
    (λ '(vector, idx) name,
       r ← truediv (f name) d;
       vector ← set_slice vector idx (idx + w) (replicate w r);
       mret (vector, (idx + w)%nat))
    (pre ++ zeros m, length pre)
  = Ok (pre ++ flat_map (λ name, replicate w (f name / d)%Q) names ++
          zeros (m - length names * w),
        (length pre + length names * w)%nat).
Proof.
  intros Hd. revert pre m.
  induction names as [|name names IH]; intros pre m Hroom.
  - cbn. by rewrite Nat.sub_0_r, Nat.add_0_r.
  - cbn [for_each length flat_map] in *.
    rewrite (truediv_ok _ _ Hd). cbn [mbind result_bind].
    pose proof (set_slice_fill pre (replicate w (f name / d)%Q) m) as Hset.
    rewrite length_replicate in Hset. rewrite Hset by lia.
    cbn [mbind result_bind mret result_ret].
    rewrite app_assoc.
    replace (length pre + w)%nat
      with (length (pre ++ replicate w (f name / d)%Q))
      by (rewrite length_app, length_replicate; lia).
    rewrite IH by lia.
    rewrite length_app, length_replicate, <- !app_assoc.
    replace (m - w - length names * w)%nat
      with (m - S (length names) * w)%nat by lia.
    replace (length pre + w + length names * w)%nat
      with (length pre + S (length names) * w)%nat by lia.
    done.
Qed.

Lemma flat_map_ext_elem {A B} (f g : A → list B) (xs : list A) :
  (∀ x, x ∈ xs → f x = g x) → flat_map f xs = flat_map g xs.
Proof.
  induction xs as [|x xs IH]; intros Hfg; simpl; [done|].
  rewrite Hfg by apply list_elem_of_here.
  rewrite IH; [done|]. intros y Hy. by apply Hfg, list_elem_of_further.
Qed.

Lemma flat_map_replicate_length {A B} (w : nat) (g : A → B) (xs : list A) :
  length (flat_map (λ x, replicate w (g x)) xs) = (length xs * w)%nat.
Proof.
  induction xs as [|x xs IH]; simpl; [done|].
  rewrite length_app, length_replicate, IH. lia.
Qed.

(** The counting loop counts, for each listed type, the elements of that
    type. *)
Lemma count_loop (t : string) (els : list UIElement)
    (counts : gmap string nat) (k : nat) :
  counts !! t = Some k →
  foldl count_element counts els !! t = Some (k + type_count t els)%nat.
Proof.
  revert counts k. unfold type_count.
  induction els as [|e els IH]; intros counts k Hk; simpl.
  - by rewrite Nat.add_0_r.
  - destruct (decide (element_type e = t)) as [He|He].
    + rewrite filter_cons_True by done. simpl.
      rewrite (IH _ (S k)); [f_equal; lia|].
      unfold count_element. rewrite He, Hk. apply lookup_insert_eq.
    + rewrite filter_cons_False by done.
      apply IH. unfold count_element.
      destruct (counts !! element_type e); [|done].
      by rewrite lookup_insert_ne.
Qed.

Lemma element_counts_eq (n : nat) (els : list UIElement) (t : string) :
  t ∈ element_types (UIStateRepresentation_init n) →
  foldl count_element
    (zero_counts (element_types (UIStateRepresentation_init n))) els !!! t
  = type_count t els.
Proof.
  intros Ht.
  assert (Hzero :
    zero_counts (element_types (UIStateRepresentation_init n)) !! t
    = Some 0%nat).
  { cbn [UIStateRepresentation_init element_types] in *.
    repeat (apply elem_of_cons in Ht as [->|Ht]; [by vm_compute|]).
    by apply elem_of_nil in Ht. }
  by rewrite lookup_total_alt, (count_loop t els _ 0 Hzero).
Qed.

Lemma scaled_numeric (ctx : gmap string pyval) (key : string) (d : Q) :
  numeric (ctx !! key) → Qeq_bool d 0 = false →
  scaled ctx key d = Ok (scaled_value ctx key d).
Proof.
  unfold scaled, scaled_value, val_truediv. intros Hnum Hd.
  destruct (ctx !! key) as [[| | |]|]; simpl in *;
    (done || by rewrite truediv_ok).
Qed.

(** On a page with elements the two histogram loops go through; what is
    left of [state_to_vector] is the page block and the user block. *)
Lemma state_to_vector_after_blocks (n : nat) (ps : PageState) :
  elements ps ≠ [] →
  let els := elements ps in
  let self := UIStateRepresentation_init n in
  let ctx := user_context ps in
  let blocks :=
    flat_map
      (λ t, replicate 10 (Qnat (type_count t els) / Qnat (length els))%Q)
      (element_types self) ++
    flat_map
      (λ a, replicate 5 (Qnat (attr_count a els) / Qnat (length els))%Q)
      (attribute_types self) in
  state_to_vector self ps =
  (f0 ← truediv (Qnat (length els)) (Qnat n);
   vector ← set_slice (blocks ++ zeros 30) 145 155
     [ f0;
       indicator (contains "login" (page_type ps));
       indicator (contains "product" (page_type ps));
       indicator (contains "basket" (page_type ps));
       indicator (contains "admin" (page_type ps));
       (Qnat (String.length (url ps)) / 100.0)%Q;
       indicator (flag ctx "logged_in");
       indicator (flag ctx "is_admin");
       indicator (flag ctx "has_items_in_basket");
       indicator (flag ctx "is_deluxe_user") ];
   u0 ← scaled ctx "user_id" 1000.0%Q;
   u1 ← scaled ctx "session_duration" 3600.0%Q;
   u2 ← scaled ctx "page_views" 100.0%Q;
   u3 ← scaled ctx "failed_logins" 10.0%Q;
   u4 ← scaled ctx "successful_actions" 50.0%Q;
   vector ← set_slice vector 155 160 [u0; u1; u2; u3; u4];
   mret vector).
Proof.
  intros Hels els self ctx blocks.
  assert (Hlen : Qeq_bool (Qnat (length els)) 0 = false).
  { apply Qnat_eq_bool_0. unfold els. by destruct (elements ps). }
  unfold state_to_vector. fold els self ctx.
  set (counts := foldl count_element (zero_counts (element_types self)) els).
  change (zeros (length (element_types self) * 10 +
                 length (attribute_types self) * 5 + 20 + 10))
    with ([] ++ zeros 175).
  change 0%nat with (length (@nil Q)) at 1.
  rewrite (fill_blocks 10 (λ t, Qnat (counts !!! t))
             (Qnat (length els)) (element_types self) [] 175 Hlen)
    by (cbn; lia).
  change (length (@nil Q) + length (element_types self) * 10)%nat
    with 110%nat.
  change (175 - length (element_types self) * 10)%nat with 65%nat.
  cbn [mbind result_bind app].
  assert (Hblocks :
    flat_map (λ name, replicate 10
                (Qnat (counts !!! name) / Qnat (length els))%Q)
      (element_types self)
    = flat_map (λ t, replicate 10
                (Qnat (type_count t els) / Qnat (length els))%Q)
      (element_types self)).
  { apply flat_map_ext_elem. intros t Ht.
    unfold counts, self. by rewrite element_counts_eq. }
  rewrite Hblocks. clear Hblocks.
  set (types := flat_map _ (element_types self)) in *.
  assert (Ltypes : length types = 110%nat).
  { unfold types. by rewrite flat_map_replicate_length. }
  rewrite <- Ltypes.
  rewrite (fill_blocks 5 (λ a, Qnat (attr_count a els))
             (Qnat (length els)) (attribute_types self) types 65
             Hlen) by (cbn; lia).
  change (65 - length (attribute_types self) * 5)%nat with 30%nat.
  change (length (attribute_types self) * 5)%nat with 35%nat.
  cbn [mbind result_bind].
  rewrite Ltypes. change (110 + 35)%nat with 145%nat.
  change (145 + 10)%nat with 155%nat. change (155 + 5)%nat with 160%nat.
  rewrite (truediv_ok _ 100.0 eq_refl).
  unfold blocks. fold types. by rewrite <- app_assoc.
Qed.

Lemma blocks_length (n : nat) (els : list UIElement) :
  let self := UIStateRepresentation_init n in
  length
    (flat_map
       (λ t, replicate 10 (Qnat (type_count t els) / Qnat (length els))%Q)
       (element_types self) ++
     flat_map
       (λ a, replicate 5 (Qnat (attr_count a els) / Qnat (length els))%Q)
       (attribute_types self)) = 145%nat.
Proof.
  intros self. by rewrite length_app, !flat_map_replicate_length.
Qed.

(** The layout of the returned vector. *)
Lemma state_layout_eq (n : nat) (ps : PageState) :
  elements ps ≠ [] → n ≠ 0%nat →
  (∀ key,
     key ∈ ["user_id"; "session_duration"; "page_views"; "failed_logins";
            "successful_actions"] →
     numeric (user_context ps !! key)) →
  state_to_vector (UIStateRepresentation_init n) ps
  = Ok (state_layout n ps).
Proof.
  intros Hels Hn Hctx.
  rewrite state_to_vector_after_blocks by done.
  rewrite (truediv_ok _ _ (Qnat_eq_bool_0 n Hn)). cbn [mbind result_bind].
  fold (page_block n ps).
  rewrite (set_slice_fill_at _ (page_block n ps) 30)
    by (rewrite ?blocks_length; cbn; lia).
  cbn [mbind result_bind].
  rewrite !scaled_numeric by (done || apply Hctx; set_solver).
  cbn [mbind result_bind].
  fold (user_block ps).
  rewrite app_assoc.
  rewrite (set_slice_fill_at _ (user_block ps) 20)
    by (rewrite ?length_app, ?blocks_length; cbn; lia).
  cbn [mbind result_bind mret result_ret].
  unfold state_layout. by rewrite <- !app_assoc.
Qed.

(** When [state_to_vector] returns. *)
Lemma state_to_vector_ok_iff (n : nat) (ps : PageState) :
  (∃ v, state_to_vector (UIStateRepresentation_init n) ps = Ok v) ↔
  elements ps ≠ [] ∧ n ≠ 0%nat ∧
  ∀ key,
    key ∈ ["user_id"; "session_duration"; "page_views"; "failed_logins";
           "successful_actions"] →
    numeric (user_context ps !! key).
Proof.
  split.
  - intros [v Hv].
    assert (Hels : elements ps ≠ []).
    { intros Hnil. destruct ps as [u t els ctx pt ts]. cbn in Hnil.
      subst els. discriminate Hv. }
    rewrite state_to_vector_after_blocks in Hv by done.
    split; [done|].
    assert (Hn : n ≠ 0%nat).
    { intros ->. discriminate Hv. }
    split; [done|].
    rewrite (truediv_ok _ _ (Qnat_eq_bool_0 n Hn)) in Hv.
    cbn [mbind result_bind] in Hv.
    apply bind_ok in Hv as (v1 & _ & Hv).
    apply bind_ok in Hv as (u0 & H0 & Hv).
    apply bind_ok in Hv as (u1 & H1 & Hv).
    apply bind_ok in Hv as (u2 & H2 & Hv).
    apply bind_ok in Hv as (u3 & H3 & Hv).
    apply bind_ok in Hv as (u4 & H4 & Hv).
    assert (Hnum : ∀ key d u, scaled (user_context ps) key d = Ok u →
                              numeric (user_context ps !! key)).
    { intros key d u. unfold scaled, val_truediv.
      by destruct (user_context ps !! key) as [[| | |]|]. }
    intros key Hkey.
    repeat (apply elem_of_cons in Hkey as [->|Hkey]; [by eapply Hnum|]).
    by apply elem_of_nil in Hkey.
  - intros (Hels & Hn & Hctx). eexists. by apply state_layout_eq.
Qed.

(** X3: on a page with at least one element (nonzero [max_elements],
    numeric user counters) [state_to_vector] returns exactly this layout:
    for each element type ten copies of its share of the elements, for each
    attribute type five copies of the share of elements carrying it, ten
    page entries, five user entries, and fifteen trailing zeros. *)
Theorem state_to_vector_layout (n : nat) (ps : PageState) :
  elements ps ≠ [] → n ≠ 0%nat →
  (∀ key,
     key ∈ ["user_id"; "session_duration"; "page_views"; "failed_logins";
            "successful_actions"] →
     numeric (user_context ps !! key)) →
  state_to_vector (UIStateRepresentation_init n) ps
  = Ok (state_layout n ps).
Proof. apply state_layout_eq. Qed.

(** The statement of X3 on the home page of the fixtures. *)
Lemma state_to_vector_layout_witness :
  state_to_vector default_representation home_page
  = Ok (state_layout 100 home_page).
Proof.
  apply (state_to_vector_layout 100 home_page).
  - discriminate.
  - discriminate.
  - intros key _. exact I.
Defined.

(** X4: [state_to_vector] returns a vector exactly when the page has at
    least one element, [max_elements] is not zero and the five user
    counters are numbers (or absent); in every other case it raises. *)
Theorem state_to_vector_returns_iff (n : nat) (ps : PageState) :
  (∃ v, state_to_vector (UIStateRepresentation_init n) ps = Ok v) ↔
  elements ps ≠ [] ∧ n ≠ 0%nat ∧
  ∀ key,
    key ∈ ["user_id"; "session_duration"; "page_views"; "failed_logins";
           "successful_actions"] →
    numeric (user_context ps !! key).
Proof. apply state_to_vector_ok_iff. Qed.

Lemma Qnat_le (k m : nat) : (k ≤ m)%nat → (Qnat k <= Qnat m)%Q.
Proof. intros Hkm. unfold Qnat. rewrite <- Zle_Qle. lia. Qed.

Lemma Qnat_share (k m : nat) :
  (k ≤ m)%nat → m ≠ 0%nat → (0 <= Qnat k / Qnat m <= 1)%Q.
Proof.
  intros Hkm Hm.
  assert (Hpos : (0 < Qnat m)%Q).
  { unfold Qnat. change 0%Q with (inject_Z 0). rewrite <- Zlt_Qlt. lia. }
  split.
  - apply Qle_shift_div_l; [done|]. rewrite Qmult_0_l. apply Qnat_nonneg.
  - apply Qle_shift_div_r; [done|]. rewrite Qmult_1_l. by apply Qnat_le.
Qed.

(** X5: whenever [state_to_vector] returns, the vector has 175 entries, the
    145 histogram entries (element types, then attribute types) all lie
    between 0 and 1, and the last 15 entries are zeros that no part of the
    encoder writes. *)
Theorem state_vector_histogram_bounds (n : nat) (ps : PageState)
    (v : list Q) :
  state_to_vector (UIStateRepresentation_init n) ps = Ok v →
  length v = 175%nat ∧
  Forall (λ x, (0 <= x <= 1)%Q) (take 145 v) ∧
  drop 160 v = zeros 15.
Proof.
  intros Hv. split; [by eapply state_to_vector_length|].
  destruct (proj1 (state_to_vector_ok_iff n ps)) as (Hels & Hn & Hctx);
    [by exists v|].
  rewrite state_layout_eq in Hv by done. injection Hv as <-.
  unfold state_layout.
  pose proof (blocks_length n (elements ps)) as Hlen. cbn zeta in Hlen.
  set (types := flat_map _ (element_types _)) in *.
  set (attrs := flat_map _ (attribute_types _)) in *.
  assert (Hm : length (elements ps) ≠ 0%nat) by by destruct (elements ps).
  split.
  - rewrite (app_assoc types attrs), take_app_length' by done.
    apply Forall_app. split.
    + apply Forall_flat_map, Forall_forall. intros t _.
      apply Forall_replicate, Qnat_share; [apply length_filter | done].
    + apply Forall_flat_map, Forall_forall. intros a _.
      apply Forall_replicate, Qnat_share; [apply length_filter | done].
  - rewrite (app_assoc types attrs), (app_assoc (types ++ attrs)),
      (app_assoc ((types ++ attrs) ++ _)).
    apply drop_app_length'.
    rewrite 2!length_app, Hlen. reflexivity.
Qed.

Lemma indicator_sum (x : string) (types : list string) :
  NoDup types → x ∈ types →
  sum_list ((λ t, if decide (x = t) then 1 else 0)%nat <$> types) = 1%nat.
Proof.
  induction 1 as [|t types Hnotin Hnodup IH]; intros Hx.
  - by apply elem_of_nil in Hx.
  - cbn [fmap list_fmap sum_list sum_list_with].
    fold (fmap (M := list) (λ t, if decide (x = t) then 1 else 0)%nat types).
    destruct (decide (x = t)) as [->|Hne].
    + assert (Hzero : ∀ l : list string, t ∉ l →
        sum_list ((λ t', if decide (t = t') then 1 else 0)%nat <$> l) = 0%nat).
      { induction l as [|y l IHl]; intros Hl; [done|].
        cbn. rewrite decide_False by set_solver.
        apply IHl. set_solver. }
      by rewrite Hzero.
    + apply elem_of_cons in Hx as [?|Hx]; [done|]. by rewrite IH.
Qed.

Lemma type_count_cons (t : string) (e : UIElement) (els : list UIElement) :
  type_count t (e :: els)
  = ((if decide (element_type e = t) then 1 else 0) + type_count t els)%nat.
Proof.
  unfold type_count.
  destruct (decide (element_type e = t)).
  - by rewrite filter_cons_True.
  - by rewrite filter_cons_False.
Qed.

(** Over a duplicate-free list of types that covers the page, the type
    counts add up to the number of elements. *)
Lemma type_count_total (types : list string) (els : list UIElement) :
  NoDup types → Forall (λ e, element_type e ∈ types) els →
  sum_list ((λ t, type_count t els) <$> types) = length els.
Proof.
  intros Hnodup. induction 1 as [|e els He Hels IH].
  - induction types as [|t types IHt]; [done|].
    cbn. apply IHt. by apply NoDup_cons in Hnodup as [_ ?].
  - assert (Hsplit :
      sum_list ((λ t, type_count t (e :: els)) <$> types)
      = (sum_list ((λ t, if decide (element_type e = t) then 1 else 0)%nat
                   <$> types)
         + sum_list ((λ t, type_count t els) <$> types))%nat).
    { clear. induction types as [|t types IHt]; [done|].
      rewrite !fmap_cons. cbn [sum_list_with id].
      rewrite type_count_cons, IHt. lia. }
    rewrite Hsplit, IH, indicator_sum by done. reflexivity.
Qed.

Lemma Qsum_app (xs ys : list Q) : (Qsum (xs ++ ys) == Qsum xs + Qsum ys)%Q.
Proof.
  induction xs as [|x xs IH].
  - change (Qsum ([] ++ ys)) with (Qsum ys). change (Qsum []) with 0%Q. ring.
  - change (Qsum ((x :: xs) ++ ys)) with (x + Qsum (xs ++ ys))%Q.
    change (Qsum (x :: xs)) with (x + Qsum xs)%Q. rewrite IH. ring.
Qed.

Lemma Qsum_replicate (w : nat) (x : Q) :
  (Qsum (replicate w x) == Qnat w * x)%Q.
Proof.
  induction w as [|w IH].
  - change (Qsum (replicate 0 x)) with 0%Q. change (Qnat 0) with 0%Q. ring.
  - change (Qsum (replicate (S w) x)) with (x + Qsum (replicate w x))%Q.
    rewrite IH. unfold Qnat.
    rewrite Nat2Z.inj_succ, <- Z.add_1_r, inject_Z_plus. ring.
Qed.

Lemma Qsum_shares (w : nat) (c : string → nat) (d : Q)
    (types : list string) :
  (Qsum (flat_map (λ t, replicate w (Qnat (c t) / d)%Q) types)
   == Qnat w * (Qnat (sum_list (c <$> types)) / d))%Q.
Proof.
  induction types as [|t types IH].
  - change (Qsum (flat_map _ [])) with 0%Q.
    change (Qnat (sum_list (c <$> []))) with 0%Q. unfold Qdiv. ring.
  - cbn [flat_map]. rewrite Qsum_app, Qsum_replicate, IH.
    rewrite fmap_cons. cbn [sum_list_with id].
    assert (Hadd : ∀ a b : nat, (Qnat (a + b) == Qnat a + Qnat b)%Q).
    { intros a b. unfold Qnat. by rewrite Nat2Z.inj_add, inject_Z_plus. }
    rewrite Hadd. unfold Qdiv. ring.
Qed.

(** X6: when every element has one of the eleven listed types (as the
    elements [extract_elements] builds do), the element-type shares add up
    to one: the 110 entries of the type histogram sum to 10. *)
Theorem type_histogram_sums_to_ten (n : nat) (ps : PageState) (v : list Q) :
  Forall
    (λ e, element_type e ∈ element_types (UIStateRepresentation_init n))
    (elements ps) →
  state_to_vector (UIStateRepresentation_init n) ps = Ok v →
  (Qsum (take 110 v) == 10)%Q.
Proof.
  intros Hknown Hv.
  destruct (proj1 (state_to_vector_ok_iff n ps)) as (Hels & Hn & Hctx);
    [by exists v|].
  rewrite state_layout_eq in Hv by done. injection Hv as <-.
  unfold state_layout.
  rewrite take_app_length'
    by (by rewrite flat_map_replicate_length).
  rewrite Qsum_shares, type_count_total; [| |done].
  - assert (Hpos : ¬ (Qnat (length (elements ps)) == 0)%Q).
    { intros Hz. apply Qeq_bool_iff in Hz.
      rewrite Qnat_eq_bool_0 in Hz; [done|]. by destruct (elements ps). }
    change (Qnat 10) with 10%Q. field. exact Hpos.
  - cbn. repeat (apply NoDup_cons; split; [set_solver|]). apply NoDup_nil_2.
Qed.

(** The statements of X5 and X6 on the home page of the fixtures. *)
Lemma state_vector_histogram_bounds_witness :
  state_to_vector default_representation home_page
    = Ok (state_layout 100 home_page) ∧
  length (state_layout 100 home_page) = 175%nat ∧
  Forall (λ x, (0 <= x <= 1)%Q) (take 145 (state_layout 100 home_page)) ∧
  drop 160 (state_layout 100 home_page) = zeros 15.
Proof.
  assert (Hv : state_to_vector default_representation home_page
               = Ok (state_layout 100 home_page))
    by (vm_compute; reflexivity).
  split; [exact Hv|].
  exact (state_vector_histogram_bounds 100 home_page _ Hv).
Defined.

Lemma type_histogram_sums_to_ten_witness :
  (Qsum (take 110 (state_layout 100 home_page)) == 10)%Q.
Proof.
  apply (type_histogram_sums_to_ten 100 home_page).
  - repeat constructor.
  - vm_compute. reflexivity.
Defined.

(** ** The exploration agent's memory, schedule and action choice *)

Section agent_facts.
Context `{Torch}.

(** X7: [remember] appends the new experience at the end of the memory and
    drops the oldest entries beyond [maxlen]: the length afterwards is
    [min(len + 1, maxlen)], and the memory is the tail end of the old one
    followed by the new experience. *)
Theorem remember_keeps_bound (self : ExplorationAgent) (state : list Q)
    (action : Action) (reward : Q) (next_state : list Q) (done : bool) :
  let self' := remember self state action reward next_state done in
  let e := mkExperience state action reward next_state done in
  length (memory self')
    = (S (length (memory self)) `min` memory_maxlen self)%nat ∧
  memory self' `suffix_of` (memory self ++ [e]) ∧
  memory_maxlen self' = memory_maxlen self ∧
  ((0 < memory_maxlen self)%nat → last (memory self') = Some e).
Proof.
  intros self' e. unfold self', remember, with_memory, deque_append.
  cbn [memory memory_maxlen].
  split; [rewrite length_drop, length_app; cbn [length]; lia|].
  split; [apply suffix_drop|]. split; [done|].
  intros Hmax. rewrite length_app. cbn [length].
  rewrite drop_app_le by lia. apply last_snoc.
Qed.

(** X8: a call of [replay] leaves the memory and the target network alone;
    epsilon is multiplied by the decay factor when it is above
    [epsilon_min] and is left as it is otherwise.  So, for a decay factor in
    [0, 1] and a non-negative floor, epsilon never grows, and it never falls
    below [epsilon_min * epsilon_decay] (it may end below [epsilon_min]). *)
Theorem replay_epsilon_schedule (self self' : ExplorationAgent)
    (rnd : replay_entropy) :
  replay self rnd = Ok self' →
  (0 <= epsilon_decay self <= 1)%Q → (0 <= epsilon_min self)%Q →
  memory self' = memory self ∧
  target_network self' = target_network self ∧
  (epsilon self' <= epsilon self)%Q ∧
  ((epsilon self <= epsilon_min self)%Q → epsilon self' = epsilon self) ∧
  ((epsilon_min self * epsilon_decay self <= epsilon self)%Q →
   (epsilon_min self * epsilon_decay self <= epsilon self')%Q).
Proof.
  intros Hrun [Hd0 Hd1] Hmin. unfold replay in Hrun.
  destruct (length (memory self) <? batch_size self)%nat.
  { injection Hrun as <-.
    repeat split; try done. apply Qle_refl. }
  apply bind_ok in Hrun as (batch & _ & Hrun).
  apply bind_ok in Hrun as (next_q & _ & Hrun).
  apply bind_ok in Hrun as (indices & _ & Hrun).
  apply bind_ok in Hrun as ([q' opt'] & _ & Hrun).
  injection Hrun as <-. cbn [memory target_network epsilon].
  split; [done|]. split; [done|].
  destruct (Qlt_bool (epsilon_min self) (epsilon self)) eqn:Hcmp.
  - apply Qlt_bool_true in Hcmp.
    split; [|split].
    + rewrite <- (Qmult_1_r (epsilon self)) at 2.
      apply Qmult_le_l; [|done]. by eapply Qle_lt_trans.
    + intros Hle. by apply Qle_not_lt in Hle.
    + intros _. apply Qmult_le_compat_r; [by apply Qlt_le_weak | done].
  - apply Qlt_bool_false in Hcmp.
    split; [apply Qle_refl|]. by split.
Qed.

(** X9: [_prepare_state] always returns exactly [state_size] entries: the
    UI state followed by the four coverage and quality figures, cut or
    padded with zeros. *)
Theorem _prepare_state_length (self : TestGenerationAgent)
    (data : ExplorationData) :
  let features :=
    ui_state data ++
    [ default 0.0%Q (coverage data !! "page_coverage");
      default 0.0%Q (coverage data !! "element_coverage");
      default 0.0%Q (quality data !! "test_diversity");
      default 0.0%Q (quality data !! "bug_discovery_rate") ] in
  length (_prepare_state self data) = tg_state_size self ∧
  take (length features) (_prepare_state self data)
    = take (tg_state_size self) features ∧
  drop (length features) (_prepare_state self data)
    = zeros (tg_state_size self - length features).
Proof.
  intros features. unfold _prepare_state.
  change (ui_state data ++ _ ++ _ ++ _ ++ _) with features.
  destruct (length features <? tg_state_size self)%nat eqn:Hcmp.
  - apply Nat.ltb_lt in Hcmp.
    split; [|split].
    + unfold zeros. rewrite length_app, length_replicate. lia.
    + rewrite take_app_length. by rewrite take_ge by lia.
    + by rewrite drop_app_length.
  - apply Nat.ltb_ge in Hcmp.
    split; [|split].
    + rewrite length_take. lia.
    + rewrite take_take. f_equal. lia.
    + rewrite drop_ge by (rewrite length_take; lia).
      by replace (tg_state_size self - length features)%nat with 0%nat by lia.
Qed.

End agent_facts.

(** The statement of X8 on an agent holding a full batch: epsilon goes
    from 1.0 to 1.0 * 0.995. *)
Lemma replay_epsilon_schedule_witness :
  ∃ self',
    @replay bias_networks seasoned_explorer no_replay_draw = Ok self' ∧
    epsilon self' = (1.0 * 0.995)%Q ∧
    (epsilon self' <= epsilon seasoned_explorer)%Q.
Proof.
  eexists. split; [reflexivity|]. split; [reflexivity|].
  assert (Hd : (0 <= epsilon_decay seasoned_explorer <= 1)%Q)
    by (split; unfold Qle; simpl; lia).
  assert (Hm : (0 <= epsilon_min seasoned_explorer)%Q)
    by (unfold Qle; simpl; lia).
  exact (proj1 (proj2 (proj2
    (@replay_epsilon_schedule bias_networks seasoned_explorer _
       no_replay_draw eq_refl Hd Hm)))).
Defined.

(** ** Scenario templates *)

(** X10: a freshly built test-generation agent returns a scenario for every
    pattern index, negative ones included; the pattern is the entry of
    [test_patterns] at the index modulo ten, the name ends in [_0], and the
    scenario has four steps and two assertions for the three patterns with
    a template and no step and no assertion for the seven others. *)
Theorem fresh_agent_scenarios `{Torch} (state_size action_size : nat)
    (lr : Q) (a c : module) (oa oc : optimizer) (action : Z)
    (data : ExplorationData) :
  let self := TestGenerationAgent_init state_size action_size lr a c oa oc in
  ∃ sc,
    _create_test_scenario self action data = Ok sc ∧
    test_patterns self !! Z.to_nat (action `mod` 10) = Some (pattern sc) ∧
    name sc = "marl_generated_" +:+ pattern sc +:+ "_0" ∧
    if in_list (pattern sc) ["login_flow"; "product_search"; "add_to_basket"]
    then length (steps sc) = 4%nat ∧ length (assertions sc) = 2%nat
    else steps sc = [] ∧ assertions sc = [].
Proof.
  intros self. unfold _create_test_scenario.
  cbn [self TestGenerationAgent_init test_patterns generated_tests length
       Nat.eqb].
  change (Z.of_nat 10) with 10%Z.
  assert (Hk : (Z.to_nat (action `mod` 10) < 10)%nat).
  { pose proof (Z.mod_pos_bound action 10). lia. }
  set (k := Z.to_nat (action `mod` 10)) in *.
  do 10 (destruct k as [|k];
         [eexists; split; [reflexivity|]; by repeat split|]).
  lia.
Qed.

(** ** Offered actions *)

Lemma element_actions_types (e : UIElement) (a : Action) :
  a ∈ element_actions e →
  in_list (action_type a) ["click"; "type"] = true ∧
  target_element a = Some e ∧ is_interactable e = true.
Proof.
  unfold element_actions. intros Ha.
  destruct (is_interactable e); [|by apply elem_of_nil in Ha].
  repeat match type of Ha with
  | _ ∈ (if ?c then _ else _) => destruct c
  end;
    try (by apply elem_of_nil in Ha);
    by apply list_elem_of_singleton in Ha as ->.
Qed.

Lemma element_loop_actions (els : list UIElement) (acc : list Action)
    (a : Action) :
  a ∈ foldl (λ actions element, actions ++ element_actions element) acc els →
  a ∈ acc ∨ ∃ e, e ∈ els ∧ a ∈ element_actions e.
Proof.
  revert acc. induction els as [|e els IH]; intros acc Ha; simpl in Ha.
  - by left.
  - apply IH in Ha as [Ha|(e' & He' & Ha)].
    + apply elem_of_app in Ha as [Ha|Ha]; [by left|].
      right. exists e. split; [apply list_elem_of_here | done].
    + right. exists e'. split; [by apply list_elem_of_further | done].
Qed.

(** Every offered action is a click or a typing on an interactable element
    of the page, or one of the five navigation actions. *)
Lemma offered_actions (ps : PageState) (a : Action) :
  a ∈ get_available_actions ps →
  (in_list (action_type a) ["click"; "type"] = true ∧
   ∃ e, e ∈ elements ps ∧ target_element a = Some e ∧
        is_interactable e = true) ∨
  a ∈ navigation_actions.
Proof.
  rewrite get_available_actions_split. intros Ha.
  apply elem_of_app in Ha as [Ha|Ha]; [left|by right].
  apply element_loop_actions in Ha as [Ha|(e & He & Ha)];
    [by apply elem_of_nil in Ha|].
  apply element_actions_types in Ha as (Ht & Htarget & Hi). eauto.
Qed.

Lemma traverse_ok {A B} (f : A → result B) (xs : list A) :
  (∀ x, x ∈ xs → ∃ y, f x = Ok y) → ∃ ys, traverse f xs = Ok ys.
Proof.
  induction xs as [|x xs IH]; intros Hf; [by eexists|].
  destruct (Hf x) as [y Hy]; [apply list_elem_of_here|].
  destruct IH as [ys Hys].
  { intros x' Hx'. by apply Hf, list_elem_of_further. }
  exists (y :: ys). cbn [traverse]. by rewrite Hy, Hys.
Qed.

(** X11: on the actions [get_available_actions] offers, [get_action] does
    not raise and returns one of them, in the random branch and in the
    exploiting branch alike, provided the agent has the action types of
    [__init__] and the forward pass returns at least eight Q-values. *)
Theorem get_action_on_offered_actions `{Torch} (self : ExplorationAgent)
    (rnd : entropy) (state : list Q) (ps : PageState) (q_values : list Q) :
  action_types self =
    ["click"; "type"; "scroll_up"; "scroll_down"; "wait"; "navigate_back";
     "navigate_forward"; "refresh"; "hover"] →
  forward (q_network self) (dropout rnd) state = Ok q_values →
  (8 ≤ length q_values)%nat →
  ∃ a, get_action self rnd state (get_available_actions ps) = Ok a ∧
       a ∈ get_available_actions ps.
Proof.
  intros Htypes Hforward Hlen. unfold get_action.
  pose proof (get_available_actions_nonempty ps) as Hsome.
  set (offered := get_available_actions ps) in *.
  destruct (Qle_bool (uniform rnd) (epsilon self)).
  - unfold random_choice.
    assert (Hpick : (pick rnd `mod` length offered < length offered)%nat).
    { apply Nat.mod_upper_bound. by destruct offered. }
    apply lookup_lt_is_Some_2 in Hpick as [a Ha]. rewrite Ha.
    exists a. split; [done|]. by eapply list_elem_of_lookup_2.
  - rewrite Hforward. cbn [mbind result_bind].
    destruct (traverse_ok (action_score self q_values) offered)
      as [scores Hscores].
    { intros a Ha. unfold action_score. rewrite Htypes.
      assert (Hidx : ∃ i, index (action_type a)
          ["click"; "type"; "scroll_up"; "scroll_down"; "wait";
           "navigate_back"; "navigate_forward"; "refresh"; "hover"] = Ok i ∧
          (i < 8)%nat).
      { apply offered_actions in Ha as [[Ht _]|Ha].
        - unfold in_list in Ht. cbn [existsb] in Ht.
          destruct (String.eqb_spec (action_type a) "click") as [->|_];
            [exists 0%nat; split; [reflexivity | lia]|].
          destruct (String.eqb_spec (action_type a) "type") as [->|_];
            [exists 1%nat; split; [reflexivity | lia]|].
          discriminate.
        - unfold navigation_actions in Ha.
          repeat (apply elem_of_cons in Ha as [->|Ha];
                  [eexists; split; [reflexivity | cbn; lia]|]).
          by apply elem_of_nil in Ha. }
      destruct Hidx as (i & -> & Hi). cbn [mbind result_bind].
      unfold getitem.
      destruct (lookup_lt_is_Some_2 q_values i) as [q ->]; [lia|].
      by eexists. }
    rewrite Hscores. cbn [mbind result_bind].
    pose proof (traverse_length _ _ _ Hscores) as Hsl.
    destruct (argmax_first_maximum scores) as (i & -> & best & Hbest & _).
    { intros ->. by destruct offered. }
    cbn [mbind result_bind]. unfold getitem.
    apply lookup_lt_Some in Hbest.
    destruct (lookup_lt_is_Some_2 offered i) as [a Ha]; [lia|].
    rewrite Ha. exists a. split; [done|]. by eapply list_elem_of_lookup_2.
Qed.

(** The statement of X11 on the home page, exploiting. *)
Lemma get_action_on_offered_actions_witness :
  ∃ a,
    @get_action bias_networks greedy_explorer half_draw []
      (get_available_actions home_page) = Ok a ∧
    a ∈ get_available_actions home_page.
Proof.
  apply (@get_action_on_offered_actions bias_networks greedy_explorer
           half_draw [] home_page scroll_row);
    [reflexivity | reflexivity | simpl; lia].
Defined.

(** X12: of the actions [get_available_actions] offers, the trainer's
    [_execute_action_safely] sends every one to the browser, whereas the
    orchestrator's [_execute_action] leaves the browser untouched and
    returns the invalid-action penalty -0.1 for [navigate_back] and
    [refresh], two of the five navigation actions that are always
    offered. *)
Theorem offered_actions_execution `{WebDriver} (ps : PageState) (d : driver)
    (a : Action) :
  a ∈ get_available_actions ps →
  (∃ c, _execute_action_safely d a = perform d c) ∧
  if in_list (action_type a) ["navigate_back"; "refresh"]
  then _execute_action d a = (d, (-0.1)%Q)
  else ∃ c r, _execute_action d a = attempt d c r.
Proof.
  intros Ha. apply offered_actions in Ha as [[Ht (e & _ & He & _)]|Ha].
  - destruct a as [t target v params]. cbn in *. subst target.
    unfold in_list in Ht. cbn [existsb] in Ht.
    destruct (String.eqb_spec t "click") as [->|_];
      [split; [by eexists | by eexists _, _]|].
    destruct (String.eqb_spec t "type") as [->|_]; [|discriminate].
    split; [by eexists | by eexists _, _].
  - unfold navigation_actions in Ha.
    repeat (apply elem_of_cons in Ha as [->|Ha];
            [split; [by eexists | (reflexivity || by eexists _, _)]|]).
    by apply elem_of_nil in Ha.
Qed.

(** The statement of X12 for the [refresh] action on the home page. *)
Lemma offered_actions_execution_witness :
  Action1 "refresh" ∈ get_available_actions home_page ∧
  (∃ c, @_execute_action_safely static_page tt (Action1 "refresh")
        = @perform static_page tt c) ∧
  @_execute_action static_page tt (Action1 "refresh") = (tt, (-0.1)%Q).
Proof.
  assert (Hin : Action1 "refresh" ∈ get_available_actions home_page).
  { apply list_elem_of_In. simpl. tauto. }
  split; [exact Hin|].
  exact (@offered_actions_execution static_page home_page tt
           (Action1 "refresh") Hin).
Defined.

(** ** Quality, bug and efficiency rewards *)

Lemma py_min_bounds (a b : Q) :
  (0 <= a)%Q → (0 <= b)%Q → (0 <= py_min a b <= b)%Q.
Proof.
  intros Ha Hb. unfold py_min.
  destruct (Qlt_bool b a) eqn:Hcmp.
  - split; [done | apply Qle_refl].
  - apply Qlt_bool_false in Hcmp. by split.
Qed.

Lemma _calculate_test_complexity_bounds (steps : list (gmap string pyval))
    (c : Q) :
  _calculate_test_complexity steps = Ok c → (0 <= c <= 10)%Q.
Proof.
  unfold _calculate_test_complexity. intros Hrun.
  apply bind_ok in Hrun as (raw & Hraw & Hret). injection Hret as <-.
  assert (Hnonneg : (0 <= raw)%Q).
  { eapply (for_each_invariant (λ x, (0 <= x)%Q) _ _ 0.0%Q);
      [|lra|exact Hraw].
    intros s step s' Hs Hstep. cbv beta in Hstep.
    destruct (step !! "value") as [[| | |v]|];
      try discriminate; injection Hstep as <-;
      repeat match goal with
      | |- context [if ?b then _ else _] => destruct b
      end; lra. }
  destruct (py_min_bounds raw 10.0 Hnonneg) as [H0 H1]; [lra|].
  split; [done|]. eapply Qle_trans; [exact H1|]. lra.
Qed.

Lemma _calculate_assertion_quality_bounds
    (assertions : list (gmap string pyval)) :
  (0 <= _calculate_assertion_quality assertions <= 10)%Q.
Proof.
  unfold _calculate_assertion_quality.
  set (body := λ (quality : Q) (assertion : gmap string pyval), _).
  assert (Hnonneg : ∀ acc, (0 <= acc)%Q → (0 <= foldl body acc assertions)%Q).
  { induction assertions as [|x xs IH]; intros acc Hacc; [done|].
    simpl. apply IH. unfold body.
    repeat match goal with
    | |- context [if ?b then _ else _] => destruct b
    end; lra. }
  destruct (py_min_bounds (foldl body 0.0%Q assertions) 10.0) as [H0 H1];
    [apply Hnonneg; lra | lra |].
  split; [done|]. eapply Qle_trans; [exact H1|]. lra.
Qed.

Lemma _calculate_edge_case_coverage_bounds (sc : TestScenario) (e : Q) :
  _calculate_edge_case_coverage sc = Ok e → (0 <= e <= 5)%Q.
Proof.
  unfold _calculate_edge_case_coverage. intros Hrun.
  apply bind_ok in Hrun as (raw & Hraw & Hret). injection Hret as <-.
  assert (Hnonneg : (0 <= raw)%Q).
  { eapply (for_each_invariant (λ x, (0 <= x)%Q) _ _ 0.0%Q);
      [|lra|exact Hraw].
    intros s step s' Hs Hstep. cbv beta in Hstep.
    destruct (get_str step "value") as [v|]; [|discriminate].
    injection Hstep as <-.
    repeat match goal with
    | |- context [if ?b then _ else _] => destruct b
    end; lra. }
  destruct (py_min_bounds raw 5.0 Hnonneg) as [H0 H1]; [lra|].
  split; [done|]. eapply Qle_trans; [exact H1|]. lra.
Qed.

(** The quality reward, when it is returned, lies between 0 and 16. *)
Lemma quality_reward_bounds (sc : TestScenario) (q : Q) :
  calculate_test_quality_reward sc = Ok q → (0 <= q <= 16)%Q.
Proof.
  unfold calculate_test_quality_reward. intros Hrun.
  apply bind_ok in Hrun as (c & Hc & Hrun).
  apply bind_ok in Hrun as (e & He & Hret). injection Hret as <-.
  apply _calculate_test_complexity_bounds in Hc.
  apply _calculate_edge_case_coverage_bounds in He.
  pose proof (_calculate_assertion_quality_bounds (assertions sc)) as Ha.
  repeat match goal with
  | |- context [if ?b then _ else _] => destruct b
  end; lra.
Qed.

Lemma for_each_ok_iff {A S} (P : A → Prop) (body : S → A → result S)
    (xs : list A) (s : S) :
  (∀ s x, (∃ s', body s x = Ok s') ↔ P x) →
  (∃ s', for_each xs body s = Ok s') ↔ Forall P xs.
Proof.
  intros Hbody. revert s. induction xs as [|x xs IH]; intros s.
  - split; [constructor | by eexists].
  - cbn [for_each]. split.
    + intros [s' Hrun]. apply bind_ok in Hrun as (s1 & Hstep & Hrest).
      constructor; [apply (Hbody s); by eexists | apply (IH s1); by eexists].
    + intros [Hx Hxs]%Forall_cons.
      apply (Hbody s) in Hx as [s1 ->]. by apply IH.
Qed.

(** When the quality reward is returned. *)
Lemma quality_reward_ok_iff (sc : TestScenario) :
  (∃ q, calculate_test_quality_reward sc = Ok q) ↔
  Forall string_valued (steps sc).
Proof.
  assert (Hcomplexity : ∀ steps,
    (∃ c, _calculate_test_complexity steps = Ok c) ↔
    Forall string_valued steps).
  { intros steps. unfold _calculate_test_complexity.
    match goal with
    | |- context [for_each steps ?body _] =>
        pose proof (for_each_ok_iff string_valued body steps 0.0%Q) as Hiff
    end.
    rewrite <- Hiff.
    - split.
      + intros [c Hc]. apply bind_ok in Hc as (raw & -> & _). by eexists.
      + intros [raw ->]. by eexists.
    - intros s step. unfold string_valued.
      destruct (step !! "value") as [[| | |v]|];
        split; (done || (by intros [? ?]) || by eexists). }
  assert (Hedge :
    (∃ e, _calculate_edge_case_coverage sc = Ok e) ↔
    Forall string_valued (steps sc)).
  { unfold _calculate_edge_case_coverage.
    match goal with
    | |- context [for_each (steps sc) ?body _] =>
        pose proof (for_each_ok_iff string_valued body (steps sc) 0.0%Q)
          as Hiff
    end.
    rewrite <- Hiff.
    - split.
      + intros [c Hc]. apply bind_ok in Hc as (raw & -> & _). by eexists.
      + intros [raw ->]. by eexists.
    - intros s step. unfold string_valued, get_str.
      destruct (step !! "value") as [[| | |v]|];
        split; (done || (by intros [? ?]) || by eexists). }
  unfold calculate_test_quality_reward. split.
  - intros [q Hq]. apply bind_ok in Hq as (c & Hc & _).
    apply Hcomplexity. by eexists.
  - intros Hsteps.
    destruct (proj2 (Hcomplexity (steps sc)) Hsteps) as [c ->].
    destruct (proj2 Hedge Hsteps) as [e ->]. by eexists.
Qed.

(** X13: the quality reward of a scenario is returned exactly when every
    step's [value], where present, is a string (any other value makes
    [startswith] or the character tests raise); a returned reward lies
    between 0 and 16. *)
Theorem quality_reward_returns_iff (sc : TestScenario) :
  ((∃ q, calculate_test_quality_reward sc = Ok q) ↔
   Forall string_valued (steps sc)) ∧
  ∀ q, calculate_test_quality_reward sc = Ok q → (0 <= q <= 16)%Q.
Proof.
  split; [apply quality_reward_ok_iff | apply quality_reward_bounds].
Qed.

(** X14: every scenario the test-generation agent creates, whatever the
    agent and the pattern index, gets a quality reward (the call does not
    raise), and it lies between 0 and 16. *)
Theorem created_scenarios_are_scored `{Torch} (self : TestGenerationAgent)
    (action : Z) (data : ExplorationData) (sc : TestScenario) :
  _create_test_scenario self action data = Ok sc →
  ∃ q, calculate_test_quality_reward sc = Ok q ∧ (0 <= q <= 16)%Q.
Proof.
  intros Hcreate.
  assert (Hsteps : Forall string_valued (steps sc)).
  { unfold _create_test_scenario in Hcreate.
    destruct (length (test_patterns self) =? 0)%nat; [discriminate|].
    apply bind_ok in Hcreate as (p & _ & Hcreate).
    repeat match type of Hcreate with
    | (if ?c then _ else _) = _ => destruct c
    end; injection Hcreate as <-; cbn [steps];
      repeat constructor. }
  apply quality_reward_ok_iff in Hsteps as [q Hq].
  exists q. split; [done|]. by eapply quality_reward_bounds.
Qed.

(** The statement of X14 for a fresh agent and pattern index 0. *)
Lemma created_scenarios_are_scored_witness :
  ∃ sc,
    @_create_test_scenario bias_networks fresh_generator 0 no_data = Ok sc ∧
    ∃ q, calculate_test_quality_reward sc = Ok q ∧ (0 <= q <= 16)%Q.
Proof.
  eexists. split; [reflexivity|].
  eapply (@created_scenarios_are_scored bias_networks fresh_generator 0
            no_data).
  reflexivity.
Defined.

Lemma get_num_insert (m : gmap string pyval) (k k' : string) (q : Q) :
  get_num (<[k := PyNum q]> m) k'
  = if decide (k = k') then Ok q else get_num m k'.
Proof.
  unfold get_num. destruct (decide (k = k')) as [->|Hne].
  - by rewrite lookup_insert_eq.
  - by rewrite lookup_insert_ne.
Qed.

Lemma inject_Z_positive (z : Z) : (0 < z)%Z → Qlt_bool 0 (inject_Z z) = true.
Proof.
  intros Hz. apply Qlt_bool_true.
  change 0%Q with (inject_Z 0). by rewrite <- Zlt_Qlt.
Qed.

Lemma no_findings (k : string) :
  k ∈ ["failed_assertions"; "javascript_errors"; "accessibility_issues";
       "performance_issues"; "security_vulnerabilities"] →
  get_num
    (list_to_map
       ((λ k, (k, PyNum 0)) <$>
        ["failed_assertions"; "javascript_errors"; "accessibility_issues";
         "performance_issues"; "security_vulnerabilities"])) k
  = Ok 0%Q.
Proof.
  intros Hk.
  repeat (apply elem_of_cons in Hk as [->|Hk]; [by vm_compute|]).
  by apply elem_of_nil in Hk.
Qed.

(** X15: the bug reward of the results [_simulate_test_execution] makes up
    is 0 when its draw is 0.1 or more, and otherwise the bonus of the one
    category it picked: 3, 2, 1.5, 1 or 5 ([randint(1, 3)] is positive);
    the call never raises. *)
Theorem simulated_bug_reward (rnd : simulation_entropy)
    (test_scenario : TestScenario) :
  (0 < sim_count rnd)%Z →
  ∃ results r,
    _simulate_test_execution rnd test_scenario = Ok results ∧
    calculate_bug_discovery_reward results = Ok r ∧
    if Qlt_bool (sim_uniform rnd) 0.1
    then (r == 3 ∨ r == 2 ∨ r == 1.5 ∨ r == 1 ∨ r == 5)%Q
    else (r == 0)%Q.
Proof.
  intros Hcount. unfold _simulate_test_execution.
  pose proof (inject_Z_positive _ Hcount) as Hpos.
  assert (Hzero : Qlt_bool 0 0 = false) by reflexivity.
  destruct (Qlt_bool (sim_uniform rnd) 0.1).
  - unfold random_choice. cbn [length].
    assert (Hk : (sim_key rnd `mod` 5 < 5)%nat)
      by (apply Nat.mod_upper_bound; lia).
    destruct (sim_key rnd `mod` 5)%nat as [|[|[|[|[|k]]]]]; [..|lia];
      cbn [lookup list_lookup mbind result_bind mret result_ret];
      eexists _, _; (split; [reflexivity|]);
      unfold calculate_bug_discovery_reward;
      rewrite !get_num_insert;
      repeat (rewrite decide_True by done || rewrite decide_False by done);
      rewrite ?no_findings by (apply in_list_elem; reflexivity);
      cbn [mbind result_bind mret result_ret];
      rewrite ?Hpos, ?Hzero;
      (split; [reflexivity|]).
    + left. rewrite ?Hpos, ?Hzero. by vm_compute.
    + right. left. rewrite ?Hpos, ?Hzero. by vm_compute.
    + do 2 right. left. rewrite ?Hpos, ?Hzero. by vm_compute.
    + do 3 right. left. rewrite ?Hpos, ?Hzero. by vm_compute.
    + do 4 right. rewrite ?Hpos, ?Hzero. by vm_compute.
  - eexists _, _. split; [reflexivity|].
    unfold calculate_bug_discovery_reward.
    rewrite ?no_findings by (apply in_list_elem; reflexivity).
    cbn [mbind result_bind mret result_ret]. rewrite ?Hzero.
    split; [reflexivity | by vm_compute].
Qed.

(** The statement of X15 for a draw below 0.1 that picks the security
    category. *)
Lemma simulated_bug_reward_witness :
  ∃ results r,
    _simulate_test_execution (mkSimulationEntropy 0.05 4 2)
      (mkTestScenario "t" "login_flow" [] [] ∅ "none" "medium")
      = Ok results ∧
    calculate_bug_discovery_reward results = Ok r ∧
    (r == 3 ∨ r == 2 ∨ r == 1.5 ∨ r == 1 ∨ r == 5)%Q.
Proof.
  apply (simulated_bug_reward (mkSimulationEntropy 0.05 4 2)
           (mkTestScenario "t" "login_flow" [] [] ∅ "none" "medium")).
  simpl. lia.
Defined.
